(** * Model policy and endpoint resolution: src/constants.js

    A shallow embedding of the constants module of the proxy: the platform
    resolver ([getAntigravityDbPath]), the policy tables
    ([ANTIGRAVITY_ENDPOINT_FALLBACKS], [MODEL_FALLBACK_MAP], the configurable
    knobs) and the model classifier ([getModelFamily], [isThinkingModel]).

    JavaScript strings are sequences of UTF-16 code units.  The embedding
    covers the strings whose code units are below 256 (Basic Latin and the
    Latin-1 Supplement), written as [string]: on those
    [String.prototype.toLowerCase] works unit by unit and stays inside the
    range, so every function below is exact on its domain. *)

From Stdlib Require Import String Ascii ZArith NArith Bool Lia.
From Stdlib Require DecimalString DecimalN.
From stdpp Require Import base option list gmap strings.

Open Scope string_scope.

(** ** JavaScript values *)

(** The scalar values a JSON configuration file or a request field can hold.
    Numbers are the integer-valued ones. *)
Inductive JSValue : Type :=
  | VUndefined
  | VNull
  | VBool (b : bool)
  | VNumber (n : Z)
  | VString (s : string).

(** ToBoolean: [undefined], [null], [false], [0] and [''] are falsy. *)
Definition truthy (v : JSValue) : bool :=
  match v with
  | VUndefined | VNull => false
  | VBool b => b
  | VNumber n => negb (n =? 0)%Z
  | VString s => negb (s =? "")
  end.

(** [a || b] *)
Definition jsOr (a b : JSValue) : JSValue := if truthy a then a else b.

(** ** String primitives *)

(** One code unit of [toLowerCase]: A-Z and the Latin-1 capitals
    (U+00C0..U+00DE except the multiplication sign U+00D7) move up by 32. *)
Definition toLowerCaseUnit (c : ascii) : ascii :=
  let n := N_of_ascii c in
  if ((65 <=? n) && (n <=? 90) || (192 <=? n) && (n <=? 222) && negb (n =? 215))%N
  then ascii_of_N (n + 32)
  else c.

(** [s.toLowerCase()] *)
Fixpoint toLowerCase (s : string) : string :=
  match s with
  | EmptyString => EmptyString
  | String c s' => String (toLowerCaseUnit c) (toLowerCase s')
  end.

(** [s.startsWith(w)] *)
Fixpoint startsWith (s w : string) {struct w} : bool :=
  match w, s with
  | EmptyString, _ => true
  | String _ _, EmptyString => false
  | String a w', String b s' => Ascii.eqb a b && startsWith s' w'
  end.

(** [s.includes(w)]: [w] starts at some position of [s]. *)
Fixpoint includes (s w : string) : bool :=
  startsWith s w ||
  match s with
  | EmptyString => false
  | String _ s' => includes s' w
  end.

(** The last code unit, if any; [s.charCodeAt(s.length - 1)]. *)
Fixpoint lastUnit (s : string) : option ascii :=
  match s with
  | EmptyString => None
  | String c EmptyString => Some c
  | String _ s' => lastUnit s'
  end.

(** [v.toLowerCase()] on a value of [JSValue]: of these primitive values
    only strings have the method, any other one raises a TypeError ([None]).
    Objects are not among the values of [JSValue]. *)
Definition toLowerCaseOf (v : JSValue) : option string :=
  match v with
  | VString s => Some (toLowerCase s)
  | _ => None
  end.

(** ** The regular expression [/gemini-(\d+)/] and [parseInt] *)

(** [\d] *)
Definition isDigit (c : ascii) : bool :=
  let n := N_of_ascii c in ((48 <=? n) && (n <=? 57))%N.

(** The greedy run [\d*] at the start of [s]. *)
Fixpoint takeDigits (s : string) : string :=
  match s with
  | EmptyString => EmptyString
  | String c s' => if isDigit c then String c (takeDigits s') else EmptyString
  end.

(** The rest of [s] after the literal [w], when [s] starts with it. *)
Fixpoint dropPrefix (w s : string) {struct w} : option string :=
  match w, s with
  | EmptyString, _ => Some s
  | String _ _, EmptyString => None
  | String a w', String b s' => if Ascii.eqb a b then dropPrefix w' s' else None
  end.

(** The pattern anchored at the start of [s]: capture group 1, that is the
    longest non-empty run of digits after ["gemini-"]. *)
Definition matchVersionHere (s : string) : option string :=
  match dropPrefix "gemini-" s with
  | Some rest =>
      match takeDigits rest with
      | EmptyString => None
      | ds => Some ds
      end
  | None => None
  end.

(** [lower.match(/gemini-(\d+)/)]: the engine tries the start positions from
    left to right and keeps the first match; [None] is [null], [Some ds] is a
    match whose group 1 is [ds]. *)
Fixpoint matchGeminiVersion (s : string) : option string :=
  match matchVersionHere s with
  | Some ds => Some ds
  | None =>
      match s with
      | EmptyString => None
      | String _ s' => matchGeminiVersion s'
      end
  end.

Definition digitValue (c : ascii) : N := (N_of_ascii c - 48)%N.

Fixpoint parseDigits (acc : N) (s : string) : N :=
  match s with
  | EmptyString => acc
  | String c s' => if isDigit c then parseDigits (acc * 10 + digitValue c) s' else acc
  end.

(** [parseInt(s, 10)] on a string that starts with neither white space nor a
    sign: the value of the leading digits, [None] (NaN) when there is none.
    The result is kept as an exact integer; the Number that JavaScript
    returns is its rounding to a double, which is at least 3 exactly when
    the integer is. *)
Definition parseInt (s : string) : option N :=
  match s with
  | EmptyString => None
  | String c _ => if isDigit c then Some (parseDigits 0 s) else None
  end.

(** ** Model classifier *)

Inductive ModelFamily : Type := Claude | Gemini | Unknown.

(** The string a family is returned as. *)
Definition familyName (f : ModelFamily) : string :=
  match f with
  | Claude => "claude"
  | Gemini => "gemini"
  | Unknown => "unknown"
  end.

(** [getModelFamily(modelName)].  [None] is the TypeError of calling
    [toLowerCase] on a truthy value that is not a string. *)
Definition getModelFamily (modelName : JSValue) : option ModelFamily :=
  match toLowerCaseOf (jsOr modelName (VString "")) with
  | None => None
  | Some lower =>
      if includes lower "claude" then Some Claude
      else if includes lower "gemini" then Some Gemini
      else Some Unknown
  end.

(** [isThinkingModel(modelName)] *)
Definition isThinkingModel (modelName : JSValue) : option bool :=
  match toLowerCaseOf (jsOr modelName (VString "")) with
  | None => None
  | Some lower =>
      if includes lower "claude" && includes lower "thinking" then Some true
      else if includes lower "gemini" then
        if includes lower "thinking" then Some true
        else
          match matchGeminiVersion lower with
          | Some ds =>
              match parseInt ds with
              | Some n => if (3 <=? n)%N then Some true else Some false
              | None => Some false
              end
          | None => Some false
          end
      else Some false
  end.

(** ** Paths: [path.join] of a POSIX host *)

(** [s.split(sep)] for a one-unit separator. *)
Fixpoint splitOn (sep : ascii) (s : string) : list string :=
  match s with
  | EmptyString => [EmptyString]
  | String c s' =>
      if Ascii.eqb c sep then EmptyString :: splitOn sep s'
      else
        match splitOn sep s' with
        | [] => [String c EmptyString]
        | seg :: segs => String c seg :: segs
        end
  end.

(** [segs.join(sep)] *)
Fixpoint joinWith (sep : string) (segs : list string) : string :=
  match segs with
  | [] => EmptyString
  | [seg] => seg
  | seg :: rest => seg +:+ sep +:+ joinWith sep rest
  end.

(** One segment of Node's [normalizeString]; [acc] holds the segments kept so
    far, the last one first.  Empty and ["."] segments vanish, [".."] removes
    the segment before it, or stays when there is none to remove and the path
    is relative. *)
Definition normalizeStep (allowAboveRoot : bool) (acc : list string) (seg : string)
    : list string :=
  if (seg =? "") || (seg =? ".") then acc
  else if seg =? ".." then
    match acc with
    | top :: rest =>
        if top =? ".." then (if allowAboveRoot then ".." :: acc else acc) else rest
    | [] => if allowAboveRoot then [".."] else []
    end
  else seg :: acc.

(** [path.posix.normalize] *)
Definition normalize (path : string) : string :=
  if path =? "" then "."
  else
    let isAbsolute := startsWith path "/" in
    let trailingSeparator :=
      match lastUnit path with Some c => Ascii.eqb c "/" | None => false end in
    let kept := rev (fold_left (normalizeStep (negb isAbsolute)) (splitOn "/" path) []) in
    let p := joinWith "/" kept in
    if p =? "" then
      if isAbsolute then "/" else if trailingSeparator then "./" else "."
    else
      (if isAbsolute then "/" else "") +:+ p +:+ (if trailingSeparator then "/" else "").

(** [path.posix.join(a, b)]: the non-empty arguments, joined by ["/"] and
    normalized. *)
Definition posixJoin (a b : string) : string :=
  match a =? "", b =? "" with
  | true, true => "."
  | true, false => normalize b
  | false, true => normalize a
  | false, false => normalize (a +:+ "/" +:+ b)
  end.

(** ** Platform resolver *)

(** What the module reads from [os] and [path]: [platform()], [homedir()]
    and [join].  On a Windows host Node binds [join] to [path.win32.join],
    which also turns every ["/"] into a backslash; [posixHost] is a host
    (real or simulated) whose [path] module is the POSIX one. *)
Record Host : Type := {
  platform : string;
  homedir : string;
  join : string -> string -> string
}.

Definition posixHost (plat home : string) : Host :=
  {| platform := plat; homedir := home; join := posixJoin |}.

(** [getAntigravityDbPath()] *)
Definition getAntigravityDbPath (os : Host) : string :=
  let home := homedir os in
  if platform os =? "darwin" then
    join os home "Library/Application Support/Antigravity/User/globalStorage/state.vscdb"
  else if platform os =? "win32" then
    join os home "AppData/Roaming/Antigravity/User/globalStorage/state.vscdb"
  else
    join os home ".config/Antigravity/User/globalStorage/state.vscdb".

Definition ANTIGRAVITY_DB_PATH (os : Host) : string := getAntigravityDbPath os.

(** An absolute path spelled from its segments: ["/seg1/seg2/..."]. *)
Fixpoint absolutePath (segs : list string) : string :=
  match segs with
  | [] => EmptyString
  | seg :: rest => "/" +:+ seg +:+ absolutePath rest
  end.

(** A segment that [normalize] keeps as it is: not empty, not ["."], not
    [".."], and without a separator inside. *)
Definition plainSegment (seg : string) : bool :=
  negb (seg =? "") && negb (seg =? ".") && negb (seg =? "..") && negb (includes seg "/").

(** ** Policy tables *)

Definition ANTIGRAVITY_ENDPOINT_DAILY : string := "https://daily-cloudcode-pa.googleapis.com".
Definition ANTIGRAVITY_ENDPOINT_PROD : string := "https://cloudcode-pa.googleapis.com".

Definition ANTIGRAVITY_ENDPOINT_FALLBACKS : list string :=
  [ANTIGRAVITY_ENDPOINT_DAILY; ANTIGRAVITY_ENDPOINT_PROD].

(** The entries of the object literal, in the order they are written. *)
Definition MODEL_FALLBACK_ENTRIES : list (string * string) :=
  [ ("gemini-3-pro-high", "claude-opus-4-5-thinking");
    ("gemini-3-pro-low", "claude-sonnet-4-5");
    ("gemini-3-flash", "claude-sonnet-4-5-thinking");
    ("claude-opus-4-5-thinking", "gemini-3-pro-high");
    ("claude-sonnet-4-5-thinking", "gemini-3-flash");
    ("claude-sonnet-4-5", "gemini-3-flash") ].

Definition MODEL_FALLBACK_MAP : gmap string string :=
  list_to_map MODEL_FALLBACK_ENTRIES.

(** ** Configurable constants *)

(** The object imported from [./config.js]: [None] when the import is
    [undefined] or [null], otherwise its properties. *)
Definition Config : Type := option (gmap string JSValue).

(** [config?.key]: [undefined] for a missing object or a missing property. *)
Definition optionalField (config : Config) (key : string) : JSValue :=
  match config with
  | None => VUndefined
  | Some obj => default VUndefined (obj !! key)
  end.

Definition TOKEN_REFRESH_INTERVAL_MS (config : Config) : JSValue :=
  jsOr (optionalField config "tokenCacheTtlMs") (VNumber (5 * 60 * 1000)).

Definition REQUEST_BODY_LIMIT (config : Config) : JSValue :=
  jsOr (optionalField config "requestBodyLimit") (VString "50mb").

Definition DEFAULT_PORT (config : Config) : JSValue :=
  jsOr (optionalField config "port") (VNumber 8080).

Definition ACCOUNT_CONFIG_PATH (os : Host) (config : Config) : JSValue :=
  jsOr (optionalField config "accountConfigPath")
       (VString (join os (homedir os) ".config/antigravity-proxy/accounts.json")).

Definition DEFAULT_COOLDOWN_MS (config : Config) : JSValue :=
  jsOr (optionalField config "defaultCooldownMs") (VNumber (10 * 1000)).

Definition MAX_RETRIES (config : Config) : JSValue :=
  jsOr (optionalField config "maxRetries") (VNumber 5).

Definition MAX_ACCOUNTS (config : Config) : JSValue :=
  jsOr (optionalField config "maxAccounts") (VNumber 10).

Definition MAX_WAIT_BEFORE_ERROR_MS (config : Config) : JSValue :=
  jsOr (optionalField config "maxWaitBeforeErrorMs") (VNumber 120000).

(** The knobs that do not depend on the host, by the configuration key that
    overrides them, each with its built-in default. *)
Definition KNOBS : list (string * (Config -> JSValue) * JSValue) :=
  [ ("tokenCacheTtlMs", TOKEN_REFRESH_INTERVAL_MS, VNumber 300000);
    ("requestBodyLimit", REQUEST_BODY_LIMIT, VString "50mb");
    ("port", DEFAULT_PORT, VNumber 8080);
    ("defaultCooldownMs", DEFAULT_COOLDOWN_MS, VNumber 10000);
    ("maxRetries", MAX_RETRIES, VNumber 5);
    ("maxAccounts", MAX_ACCOUNTS, VNumber 10);
    ("maxWaitBeforeErrorMs", MAX_WAIT_BEFORE_ERROR_MS, VNumber 120000) ].

(** ** What the statements are written with *)

(** [w] occurs in [s]: some prefix [a], then [w], then some rest [b]. *)
Definition contains (s w : string) : Prop :=
  exists a b, s = a +:+ w +:+ b.

Definition allDigits (ds : string) : bool :=
  forallb isDigit (list_ascii_of_string ds).

(** A non-empty run of decimal digits, the [<integer>] of a marker. *)
Definition digitRun (ds : string) : Prop :=
  ds <> EmptyString /\ allDigits ds = true.

(** [s] does not go on with a digit. *)
Definition noDigitAhead (s : string) : Prop :=
  match s with
  | EmptyString => True
  | String c _ => isDigit c = false
  end.

(** The words of the specification: [s] contains a marker
    ["gemini-<integer>"] whose parsed integer is at least [k]. *)
Definition containsVersionAtLeast (k : N) (s : string) : Prop :=
  exists a ds b n,
    s = a +:+ "gemini-" +:+ ds +:+ b /\ digitRun ds /\
    parseInt ds = Some n /\ (k <= n)%N.

(** [ds] is the integer of the leftmost marker of [s], all of its digits
    taken: nothing that starts further left is ["gemini-"] followed by a
    digit, and no digit follows [ds]. *)
Definition firstVersionMarker (s ds : string) : Prop :=
  exists a b,
    s = a +:+ "gemini-" +:+ ds +:+ b /\ digitRun ds /\ noDigitAhead b /\
    forall a' r, s = a' +:+ "gemini-" +:+ r ->
                 String.length a' < String.length a -> noDigitAhead r.

(** The first marker of [lower] carries an integer of at least 3. *)
Definition firstVersionAtLeast3 (lower : string) : Prop :=
  exists ds n, firstVersionMarker lower ds /\ parseInt ds = Some n /\ (3 <= n)%N.

(** The version test of [isThinkingModel] on its own:
    [versionMatch && parseInt(versionMatch[1], 10) >= 3]. *)
Definition versionAtLeast3 (lower : string) : bool :=
  match matchGeminiVersion lower with
  | Some ds =>
      match parseInt ds with
      | Some n => (3 <=? n)%N
      | None => false
      end
  | None => false
  end.

(** The three directories that tell the platform branches apart. *)
Definition MARKER_MACOS : string := "Library/Application Support".
Definition MARKER_WINDOWS : string := "AppData/Roaming".
Definition MARKER_OTHER : string := ".config".

(** Some way of cutting [w] in two non-empty parts leaves a second part that
    [b] starts with: an occurrence of [w] could straddle the end of a string
    that is followed by [b]. *)
Fixpoint straddles (b w : string) : bool :=
  match w with
  | EmptyString => false
  | String _ w' =>
      match w' with
      | EmptyString => false
      | String _ _ => startsWith b w' || straddles b w'
      end
  end.

(** [n] substitutions in a row, as a dispatcher that does not cap the hops
    would make them; [None] when a model on the way has no substitute. *)
Fixpoint fallbackHops (n : nat) (model : string) : option string :=
  match n with
  | O => Some model
  | S n' =>
      match MODEL_FALLBACK_MAP !! model with
      | Some substitute => fallbackHops n' substitute
      | None => None
      end
  end.

(** ** User agent *)

(** [getPlatformUserAgent()]: the template
    [`antigravity/1.11.5 ${os}/${architecture}`], where [os] is [platform()]
    and [architecture] is what [arch()] of the [os] module returns. *)
Definition getPlatformUserAgent (os : Host) (architecture : string) : string :=
  "antigravity/1.11.5 " +:+ platform os +:+ "/" +:+ architecture.

(** ** What the further statements are written with *)

(** The decimal numeral of [n], without leading zeros (["0"] for 0). *)
Definition decimal (n : N) : string :=
  DecimalString.NilEmpty.string_of_uint (N.to_uint n).

(** [k] zeros in a row. *)
Fixpoint zeros (k : nat) : string :=
  match k with
  | O => EmptyString
  | S k' => String "0" (zeros k')
  end.

(** The segments of the relative path that [getAntigravityDbPath] joins
    onto the home directory, by platform. *)
Definition storeSegments (plat : string) : list string :=
  if plat =? "darwin" then
    ["Library"; "Application Support"; "Antigravity"; "User"; "globalStorage"; "state.vscdb"]
  else if plat =? "win32" then
    ["AppData"; "Roaming"; "Antigravity"; "User"; "globalStorage"; "state.vscdb"]
  else
    [".config"; "Antigravity"; "User"; "globalStorage"; "state.vscdb"].

(** The segments of [home] that [normalize] keeps, in order; [absolute]
    tells whether [home] starts with a separator. *)
Definition homeSegments (absolute : bool) (home : string) : list string :=
  rev (fold_left (normalizeStep (negb absolute)) (splitOn "/" home) []).

(** The value is a string. *)
Definition isString (v : JSValue) : bool :=
  match v with
  | VString _ => true
  | _ => false
  end.

(** * Properties *)

(** ** Strings *)

Lemma append_cons (c : ascii) (s t : string) :
  String c s +:+ t = String c (s +:+ t).
Proof. reflexivity. Qed.

Lemma append_empty_l (s : string) : "" +:+ s = s.
Proof. reflexivity. Qed.

Lemma append_empty_r (s : string) : s +:+ "" = s.
Proof. induction s as [|c s IH]; [reflexivity|]. rewrite append_cons, IH. reflexivity. Qed.

Lemma append_assoc (s t u : string) : (s +:+ t) +:+ u = s +:+ t +:+ u.
Proof.
  induction s as [|c s IH]; [reflexivity|].
  rewrite !append_cons, IH. reflexivity.
Qed.

Lemma startsWith_spec (s w : string) :
  startsWith s w = true <-> exists b, s = w +:+ b.
Proof.
  revert s. induction w as [|a w IH]; intros s.
  - destruct s; simpl; split; eauto.
  - destruct s as [|b s]; simpl.
    + split; [discriminate|]. intros [r Hr]. rewrite append_cons in Hr. discriminate.
    + rewrite andb_true_iff, Ascii.eqb_eq, IH. split.
      * intros [-> [r ->]]. exists r. reflexivity.
      * intros [r Hr]. rewrite append_cons in Hr. injection Hr as -> ->. eauto.
Qed.

Lemma contains_cons (c : ascii) (s w : string) :
  contains (String c s) w <-> (exists b, String c s = w +:+ b) \/ contains s w.
Proof.
  split.
  - intros [[|a' a] [b H]].
    + left. exists b. exact H.
    + right. rewrite append_cons in H. injection H as _ ->. exists a, b. reflexivity.
  - intros [[b H]|[a [b ->]]].
    + exists "", b. exact H.
    + exists (String c a), b. reflexivity.
Qed.

(** [includes] decides [contains]. *)
Lemma includes_spec (s w : string) : includes s w = true <-> contains s w.
Proof.
  induction s as [|c s IH].
  - cbn [includes]. rewrite orb_false_r, startsWith_spec. split.
    + intros [b H]. exists "", b. exact H.
    + intros [[|a' a] [b H]]; [eauto|]. rewrite append_cons in H. discriminate.
  - cbn [includes]. rewrite orb_true_iff, startsWith_spec, IH, contains_cons. reflexivity.
Qed.

Lemma includes_false_spec (s w : string) : includes s w = false <-> ~ contains s w.
Proof.
  rewrite <- includes_spec. destruct (includes s w); split; intros H; congruence.
Qed.

(** A containment between two written strings is settled by running
    [includes]. *)
Ltac decide_contains :=
  first [ apply includes_spec; reflexivity
        | apply includes_false_spec; reflexivity ].

Lemma toLowerCase_append (s t : string) :
  toLowerCase (s +:+ t) = toLowerCase s +:+ toLowerCase t.
Proof.
  induction s as [|c s IH]; [reflexivity|].
  rewrite append_cons. simpl. rewrite IH. reflexivity.
Qed.

(** Lower-casing keeps an occurrence of a word that is already lower-case. *)
Lemma contains_toLowerCase (s w : string) :
  toLowerCase w = w -> contains s w -> contains (toLowerCase s) w.
Proof.
  intros Hw [a [b ->]].
  exists (toLowerCase a), (toLowerCase b).
  rewrite !toLowerCase_append, Hw. reflexivity.
Qed.

(** ** The version pattern *)

Lemma dropPrefix_spec (w s r : string) : dropPrefix w s = Some r <-> s = w +:+ r.
Proof.
  revert s. induction w as [|a w IH]; intros s.
  - simpl. split; [intros [= ->]|intros ->]; reflexivity.
  - destruct s as [|b s]; simpl.
    + split; [discriminate|]. rewrite append_cons. discriminate.
    + rewrite append_cons. destruct (Ascii.eqb_spec a b) as [->|Hab].
      * rewrite IH. split; [intros ->; reflexivity|intros [= ->]; reflexivity].
      * split; [discriminate|]. intros [= -> _]. contradiction.
Qed.

Lemma takeDigits_split (s : string) :
  exists b, s = takeDigits s +:+ b /\ noDigitAhead b.
Proof.
  induction s as [|c s [b [Hb Hn]]].
  - exists "". split; [reflexivity|exact I].
  - simpl. destruct (isDigit c) eqn:Hc.
    + exists b. rewrite append_cons, <- Hb. split; [reflexivity|exact Hn].
    + exists (String c s). split; [reflexivity|exact Hc].
Qed.

Lemma takeDigits_allDigits (s : string) : allDigits (takeDigits s) = true.
Proof.
  unfold allDigits. induction s as [|c s IH]; [reflexivity|].
  simpl. destruct (isDigit c) eqn:Hc; [|reflexivity].
  simpl. rewrite Hc, IH. reflexivity.
Qed.

Lemma takeDigits_run (ds b : string) :
  allDigits ds = true -> noDigitAhead b -> takeDigits (ds +:+ b) = ds.
Proof.
  unfold allDigits. induction ds as [|c ds IH]; intros Hds Hb.
  - rewrite append_empty_l. destruct b as [|c b]; [reflexivity|].
    simpl in *. rewrite Hb. reflexivity.
  - simpl in Hds. apply andb_true_iff in Hds as [Hc Hds].
    rewrite append_cons. simpl. rewrite Hc, IH by assumption. reflexivity.
Qed.

Lemma takeDigits_empty (s : string) : takeDigits s = "" <-> noDigitAhead s.
Proof.
  destruct s as [|c s]; simpl; [tauto|].
  destruct (isDigit c); split; congruence.
Qed.

Lemma digitRun_ahead (ds b : string) : digitRun ds -> ~ noDigitAhead (ds +:+ b).
Proof.
  intros [Hne Hds] H. destruct ds as [|c ds]; [congruence|].
  unfold allDigits in Hds. simpl in Hds, H.
  apply andb_true_iff in Hds as [Hc _]. congruence.
Qed.

(** The pattern at the start of [s]: it matches exactly a marker that starts
    there, with all the digits that follow. *)
Lemma matchVersionHere_Some (s ds : string) :
  matchVersionHere s = Some ds <->
  exists b, s = "gemini-" +:+ ds +:+ b /\ digitRun ds /\ noDigitAhead b.
Proof.
  unfold matchVersionHere. split.
  - destruct (dropPrefix "gemini-" s) as [rest|] eqn:Hd; [|discriminate].
    apply dropPrefix_spec in Hd. subst s.
    destruct (takeDigits_split rest) as [b [Hb Hn]].
    pose proof (takeDigits_allDigits rest) as Hall.
    destruct (takeDigits rest) as [|c run] eqn:Ht; [discriminate|].
    intros [= <-]. exists b. repeat split; [congruence|discriminate|assumption..].
  - intros [b [-> [[Hne Hds] Hb]]].
    assert (dropPrefix "gemini-" ("gemini-" +:+ ds +:+ b) = Some (ds +:+ b)) as ->
      by (apply dropPrefix_spec; reflexivity).
    rewrite takeDigits_run by assumption.
    destruct ds; [contradiction|reflexivity].
Qed.

Lemma matchVersionHere_None (s : string) :
  matchVersionHere s = None <->
  forall r, s = "gemini-" +:+ r -> noDigitAhead r.
Proof.
  unfold matchVersionHere. split.
  - intros H r ->.
    assert (dropPrefix "gemini-" ("gemini-" +:+ r) = Some r) as Hd
      by (apply dropPrefix_spec; reflexivity).
    rewrite Hd in H. apply takeDigits_empty.
    destruct (takeDigits r); [reflexivity|discriminate].
  - intros H. destruct (dropPrefix "gemini-" s) as [rest|] eqn:Hd; [|reflexivity].
    apply dropPrefix_spec in Hd. apply H, takeDigits_empty in Hd. rewrite Hd. reflexivity.
Qed.

Lemma matchGeminiVersion_unfold (s : string) :
  matchGeminiVersion s =
  match matchVersionHere s with
  | Some ds => Some ds
  | None =>
      match s with
      | EmptyString => None
      | String _ s' => matchGeminiVersion s'
      end
  end.
Proof. destruct s; reflexivity. Qed.

Lemma firstVersionMarker_here (s ds : string) :
  matchVersionHere s = Some ds -> firstVersionMarker s ds.
Proof.
  intros H. apply matchVersionHere_Some in H as [b [-> [Hrun Hb]]].
  exists "", b. split; [reflexivity|]. split; [assumption|]. split; [assumption|].
  intros a' r _ Hlen. simpl in Hlen. lia.
Qed.

Lemma firstVersionMarker_later (c : ascii) (s ds : string) :
  matchVersionHere (String c s) = None ->
  firstVersionMarker s ds -> firstVersionMarker (String c s) ds.
Proof.
  intros Hnone [a [b [-> [Hrun [Hb Hleft]]]]].
  exists (String c a), b. split; [reflexivity|]. split; [assumption|]. split; [assumption|].
  intros [|c' a'] r Heq Hlen.
  - rewrite matchVersionHere_None in Hnone. apply Hnone. exact Heq.
  - rewrite (append_cons c' a') in Heq. injection Heq as _ Heq.
    apply (Hleft a' r Heq). simpl in Hlen. lia.
Qed.

Lemma firstVersionMarker_tail (c : ascii) (s ds : string) :
  matchVersionHere (String c s) = None ->
  firstVersionMarker (String c s) ds -> firstVersionMarker s ds.
Proof.
  intros Hnone [[|c' a] [b [Heq [Hrun [Hb Hleft]]]]].
  - rewrite append_empty_l in Heq.
    rewrite matchVersionHere_None in Hnone.
    apply Hnone in Heq. apply digitRun_ahead in Heq; [contradiction|assumption].
  - rewrite (append_cons c' a) in Heq. injection Heq as _ ->.
    exists a, b. split; [reflexivity|]. split; [assumption|]. split; [assumption|].
    intros a' r Heq Hlen.
    apply (Hleft (String c a') r).
    + rewrite (append_cons c a'), <- Heq. reflexivity.
    + simpl. lia.
Qed.

(** [lower.match(/gemini-(\d+)/)] returns the integer of the leftmost
    marker, all of its digits taken. *)
Lemma matchGeminiVersion_spec (s ds : string) :
  matchGeminiVersion s = Some ds <-> firstVersionMarker s ds.
Proof.
  induction s as [|c s IH]; rewrite matchGeminiVersion_unfold.
  - destruct (matchVersionHere "") as [ds'|] eqn:Hhere; [discriminate|].
    split; [discriminate|].
    intros [a [b [Heq _]]]. destruct a; discriminate.
  - destruct (matchVersionHere (String c s)) as [ds'|] eqn:Hhere.
    + split.
      * intros [= <-]. apply firstVersionMarker_here, Hhere.
      * intros [[|c' a] [b [Heq [Hrun [Hb Hleft]]]]].
        -- assert (matchVersionHere (String c s) = Some ds) as H
             by (apply matchVersionHere_Some; eauto).
           congruence.
        -- apply matchVersionHere_Some in Hhere as [b' [Heq' [Hrun' _]]].
           assert (noDigitAhead (ds' +:+ b')) as Hn.
           { apply (Hleft "" _ Heq'). simpl. lia. }
           apply digitRun_ahead in Hn; [contradiction|assumption].
    + rewrite IH. split.
      * apply firstVersionMarker_later, Hhere.
      * apply firstVersionMarker_tail, Hhere.
Qed.

(** A name without any marker has no match. *)
Lemma matchGeminiVersion_None (s : string) :
  matchGeminiVersion s = None <-> forall ds, ~ firstVersionMarker s ds.
Proof.
  split.
  - intros H ds Hm. apply matchGeminiVersion_spec in Hm. congruence.
  - intros H. destruct (matchGeminiVersion s) as [ds|] eqn:Hm; [|reflexivity].
    apply matchGeminiVersion_spec in Hm. destruct (H ds Hm).
Qed.

(** The capture group always parses. *)
Lemma parseInt_digitRun (ds : string) :
  digitRun ds -> parseInt ds = Some (parseDigits 0 ds).
Proof.
  intros [Hne Hds]. destruct ds as [|c ds]; [contradiction|].
  unfold allDigits in Hds. simpl in Hds. apply andb_true_iff in Hds as [Hc _].
  unfold parseInt. rewrite Hc. reflexivity.
Qed.

(** ** Model classifier *)

Lemma lowered_string (name : string) :
  toLowerCaseOf (jsOr (VString name) (VString "")) = Some (toLowerCase name).
Proof.
  unfold jsOr. simpl. destruct (String.eqb_spec name "") as [->|_]; reflexivity.
Qed.

Lemma getModelFamily_string (name : string) :
  getModelFamily (VString name) =
  Some (if includes (toLowerCase name) "claude" then Claude
        else if includes (toLowerCase name) "gemini" then Gemini
        else Unknown).
Proof.
  unfold getModelFamily. rewrite lowered_string.
  destruct (includes (toLowerCase name) "claude"); [reflexivity|].
  destruct (includes (toLowerCase name) "gemini"); reflexivity.
Qed.

(** The three outcomes of [getModelFamily] on a string. *)
Lemma getModelFamily_cases (name : string) :
  (getModelFamily (VString name) = Some Claude <->
     contains (toLowerCase name) "claude") /\
  (getModelFamily (VString name) = Some Gemini <->
     ~ contains (toLowerCase name) "claude" /\ contains (toLowerCase name) "gemini") /\
  (getModelFamily (VString name) = Some Unknown <->
     ~ contains (toLowerCase name) "claude" /\ ~ contains (toLowerCase name) "gemini").
Proof.
  rewrite getModelFamily_string, <- !includes_false_spec, <- !includes_spec.
  destruct (includes (toLowerCase name) "claude");
    destruct (includes (toLowerCase name) "gemini");
    (split; [|split]); split; try congruence; try tauto; intros [? ?]; congruence.
Qed.

(** [isThinkingModel] on a string, as one boolean expression. *)
Lemma isThinkingModel_bool (name : string) :
  isThinkingModel (VString name) =
  Some (includes (toLowerCase name) "claude" && includes (toLowerCase name) "thinking"
        || includes (toLowerCase name) "gemini"
           && (includes (toLowerCase name) "thinking" || versionAtLeast3 (toLowerCase name))).
Proof.
  unfold isThinkingModel, versionAtLeast3. rewrite lowered_string.
  destruct (includes (toLowerCase name) "claude");
    destruct (includes (toLowerCase name) "thinking");
    destruct (includes (toLowerCase name) "gemini"); cbn [andb orb]; try reflexivity.
  all: destruct (matchGeminiVersion (toLowerCase name)) as [ds|]; [|reflexivity].
  all: destruct (parseInt ds) as [n|]; [|reflexivity].
  all: destruct (3 <=? n)%N; reflexivity.
Qed.

(** On a string both functions return: no call of [toLowerCase] can fail. *)
Lemma classifier_total (name : string) :
  (exists f, getModelFamily (VString name) = Some f) /\
  (exists b, isThinkingModel (VString name) = Some b).
Proof.
  rewrite getModelFamily_string, isThinkingModel_bool. eauto.
Qed.

(** The version test holds exactly when the leftmost marker carries an
    integer of at least 3. *)
Lemma versionAtLeast3_spec (lower : string) :
  versionAtLeast3 lower = true <-> firstVersionAtLeast3 lower.
Proof.
  unfold versionAtLeast3, firstVersionAtLeast3. split.
  - destruct (matchGeminiVersion lower) as [ds|] eqn:Hmatch; [|discriminate].
    destruct (parseInt ds) as [n|] eqn:Hparse; [|discriminate].
    intros Hle. exists ds, n. split; [apply matchGeminiVersion_spec, Hmatch|].
    split; [exact Hparse|]. apply N.leb_le, Hle.
  - intros [ds [n [Hmarker [Hparse Hle]]]].
    apply matchGeminiVersion_spec in Hmarker. rewrite Hmarker, Hparse.
    apply N.leb_le, Hle.
Qed.

(** The first marker is one of the markers. *)
Lemma firstVersionAtLeast3_contains (lower : string) :
  firstVersionAtLeast3 lower -> containsVersionAtLeast 3 lower.
Proof.
  intros [ds [n [[a [b [Heq [Hrun _]]]] [Hparse Hle]]]].
  exists a, ds, b, n. split; [exact Heq|]. split; [exact Hrun|]. split; assumption.
Qed.

(** The decision of [isThinkingModel] on a string, branch by branch. *)
Lemma isThinkingModel_string (name : string) :
  isThinkingModel (VString name) = Some true <->
  (contains (toLowerCase name) "claude" /\ contains (toLowerCase name) "thinking") \/
  (contains (toLowerCase name) "gemini" /\
   (contains (toLowerCase name) "thinking" \/ firstVersionAtLeast3 (toLowerCase name))).
Proof.
  rewrite isThinkingModel_bool, <- versionAtLeast3_spec, <- !includes_spec.
  rewrite <- !orb_true_iff, <- !andb_true_iff, <- orb_true_iff.
  split; [intros [= ->]; reflexivity|intros ->; reflexivity].
Qed.

(** C1, as the code has it: on every name [isThinkingModel] returns, and it
    returns [true] exactly when the lower-cased name contains both "claude"
    and "thinking", or contains "gemini" and either contains "thinking" or
    has, as its leftmost marker "gemini-<integer>" (all digits taken), an
    integer of at least 3; otherwise it returns [false].  Whenever it returns
    [true] the condition of the claim as written holds as well (the leftmost
    marker is a marker).  The five names of the specification come out as
    stated. *)
Theorem isThinkingModel_first_marker :
  (forall name : string,
     let lower := toLowerCase name in
     let thinks :=
       (contains lower "claude" /\ contains lower "thinking") \/
       (contains lower "gemini" /\
        (contains lower "thinking" \/ firstVersionAtLeast3 lower)) in
     (isThinkingModel (VString name) = Some true <-> thinks) /\
     (isThinkingModel (VString name) = Some false <-> ~ thinks) /\
     (isThinkingModel (VString name) = Some true ->
        (contains lower "claude" /\ contains lower "thinking") \/
        (contains lower "gemini" /\
         (contains lower "thinking" \/ containsVersionAtLeast 3 lower)))) /\
  isThinkingModel (VString "gemini-3-pro-high") = Some true /\
  isThinkingModel (VString "gemini-2.5-pro") = Some false /\
  isThinkingModel (VString "gemini-3.5-flash-thinking") = Some true /\
  isThinkingModel (VString "claude-opus-4-5-thinking") = Some true /\
  isThinkingModel (VString "claude-opus-4-5") = Some false.
Proof.
  split; [|repeat split; reflexivity].
  intros name lower thinks.
  pose proof (isThinkingModel_string name) as Htrue. fold lower in Htrue. fold thinks in Htrue.
  split; [exact Htrue|]. split.
  - destruct (classifier_total name) as [_ [[|] Hb]]; rewrite Hb in *.
    + split; [discriminate|]. intros Hn. destruct Hn. apply Htrue. reflexivity.
    + split; [|reflexivity]. intros _ Ht. apply Htrue in Ht. discriminate.
  - intros Ht. apply Htrue in Ht as [Hclaude|[Hgemini [Hthinking|Hversion]]].
    + left. exact Hclaude.
    + right. split; [exact Hgemini|left; exact Hthinking].
    + right. split; [exact Hgemini|right].
      apply firstVersionAtLeast3_contains, Hversion.
Qed.

(** C1, the claim as written fails: "gemini-2-gemini-3" contains "gemini"
    and the marker "gemini-3", whose integer is 3, yet [isThinkingModel]
    returns [false], because only the first marker, "gemini-2", is parsed. *)
Lemma isThinkingModel_later_marker_ignored :
  contains (toLowerCase "gemini-2-gemini-3") "gemini" /\
  containsVersionAtLeast 3 (toLowerCase "gemini-2-gemini-3") /\
  isThinkingModel (VString "gemini-2-gemini-3") = Some false.
Proof.
  split; [decide_contains|].
  split; [|reflexivity].
  exists "gemini-2-", "3", "", 3%N.
  split; [reflexivity|]. split; [split; [discriminate|reflexivity]|].
  split; [reflexivity|lia].
Qed.

(** C2: [getModelFamily] lower-cases the name and returns 'claude' when the
    lower-cased name contains "claude", else 'gemini' when it contains
    "gemini", else 'unknown'.  In particular a name whose lower-cased form
    contains "claude" and not "gemini" is 'claude', and a name whose
    lower-cased form contains "gemini" and not "claude" is 'gemini'.
    Containment is read where the code reads it, on the lower-cased name; a
    name that contains "claude" as it stands is 'claude' as well. *)
Theorem getModelFamily_classification (name : string) :
  let lower := toLowerCase name in
  (contains lower "claude" <-> getModelFamily (VString name) = Some Claude) /\
  (~ contains lower "claude" /\ contains lower "gemini" <->
     getModelFamily (VString name) = Some Gemini) /\
  (~ contains lower "claude" /\ ~ contains lower "gemini" <->
     getModelFamily (VString name) = Some Unknown) /\
  (contains name "claude" -> getModelFamily (VString name) = Some Claude) /\
  (contains name "gemini" -> ~ contains lower "claude" ->
     getModelFamily (VString name) = Some Gemini) /\
  (contains lower "claude" -> ~ contains lower "gemini" ->
     getModelFamily (VString name) = Some Claude) /\
  (contains lower "gemini" -> ~ contains lower "claude" ->
     getModelFamily (VString name) = Some Gemini).
Proof.
  intros lower.
  assert (forall w, toLowerCase w = w -> contains name w -> includes lower w = true) as Hraw.
  { intros w Hw H. apply includes_spec, contains_toLowerCase; assumption. }
  destruct (getModelFamily_cases name) as [Hc [Hg Hu]]. fold lower in Hc, Hg, Hu.
  split; [symmetry; exact Hc|].
  split; [symmetry; exact Hg|].
  split; [symmetry; exact Hu|].
  split; [|split; [|split]].
  - intros H. apply Hc, includes_spec, (Hraw "claude" eq_refl H).
  - intros H Hnc. apply Hg. split; [exact Hnc|].
    apply includes_spec, (Hraw "gemini" eq_refl H).
  - intros H _. apply Hc, H.
  - intros H Hnc. apply Hg. split; assumption.
Qed.

Lemma getModelFamily_classification_witness :
  getModelFamily (VString "my-claude-model") = Some Claude /\
  getModelFamily (VString "Gemini-3-flash") = Some Gemini /\
  getModelFamily (VString "gpt-4o") = Some Unknown /\
  getModelFamily (VString "Claude-Opus-4-5") = Some Claude /\
  getModelFamily (VString "GEMINI-3-PRO-HIGH") = Some Gemini.
Proof.
  pose proof (getModelFamily_classification "my-claude-model") as [_ [_ [_ [H1 _]]]].
  pose proof (getModelFamily_classification "Gemini-3-flash") as [_ [H2 _]].
  pose proof (getModelFamily_classification "gpt-4o") as [_ [_ [H3 _]]].
  pose proof (getModelFamily_classification "Claude-Opus-4-5")
    as [_ [_ [_ [_ [_ [H4 _]]]]]].
  pose proof (getModelFamily_classification "GEMINI-3-PRO-HIGH")
    as [_ [_ [_ [_ [_ [_ H5]]]]]].
  split; [apply H1; exists "my-", "-model"; reflexivity|].
  split; [apply H2; split; decide_contains|].
  split; [apply H3; split; decide_contains|].
  split; [apply H4; decide_contains|apply H5; decide_contains].
Defined.

(** Letter case of the name as it stands does not count: "CLAUDE-gemini"
    holds no lower-case "claude", and is classified 'claude', since the
    search runs on the lower-cased name. *)
Lemma getModelFamily_upper_case_claude :
  contains "CLAUDE-gemini" "gemini" /\ ~ contains "CLAUDE-gemini" "claude" /\
  getModelFamily (VString "CLAUDE-gemini") = Some Claude.
Proof.
  split; [decide_contains|].
  split; [decide_contains|reflexivity].
Qed.

(** C4, as the code has it: for a name classified 'claude',
    [isThinkingModel] is true exactly when the lower-cased name contains
    "thinking", or contains "gemini" with a first marker of at least 3; so
    when the lower-cased name does not contain "gemini", exactly when it
    contains "thinking". *)
Theorem isThinkingModel_claude_family (name : string) :
  getModelFamily (VString name) = Some Claude ->
  let lower := toLowerCase name in
  (isThinkingModel (VString name) = Some true <->
     contains lower "thinking" \/
     (contains lower "gemini" /\ firstVersionAtLeast3 lower)) /\
  (~ contains lower "gemini" ->
     (isThinkingModel (VString name) = Some true <-> contains lower "thinking")).
Proof.
  intros Hfam lower.
  apply getModelFamily_cases in Hfam. fold lower in Hfam.
  pose proof (isThinkingModel_string name) as Hthink. fold lower in Hthink.
  rewrite Hthink. split; [tauto|]. intros Hg. tauto.
Qed.

Lemma isThinkingModel_claude_family_witness :
  getModelFamily (VString "claude-sonnet-4-5-thinking") = Some Claude /\
  (isThinkingModel (VString "claude-sonnet-4-5-thinking") = Some true <->
     contains (toLowerCase "claude-sonnet-4-5-thinking") "thinking").
Proof.
  split; [reflexivity|].
  apply (isThinkingModel_claude_family "claude-sonnet-4-5-thinking"); [reflexivity|].
  apply includes_false_spec. reflexivity.
Defined.

(** C4, the claim as written fails: "claude-gemini-3" is classified
    'claude' and its lower-cased form does not contain "thinking", yet
    [isThinkingModel] returns [true] through the version check. *)
Lemma isThinkingModel_claude_name_version_checked :
  getModelFamily (VString "claude-gemini-3") = Some Claude /\
  ~ contains (toLowerCase "claude-gemini-3") "thinking" /\
  isThinkingModel (VString "claude-gemini-3") = Some true.
Proof.
  split; [reflexivity|].
  split; [decide_contains|reflexivity].
Qed.

(** C8: the two classifiers never throw on a name: on every string, on
    [null] and on [undefined] they return.  The empty string, [null] and
    [undefined] are 'unknown' and not thinking; and so is every name that
    contains neither "claude" nor "gemini", containment being read where
    the code reads it, on the lower-cased name. *)
Theorem classifier_unknown_default :
  (forall name : string,
     (exists f, getModelFamily (VString name) = Some f) /\
     (exists b, isThinkingModel (VString name) = Some b)) /\
  (getModelFamily (VString "") = Some Unknown /\
   isThinkingModel (VString "") = Some false) /\
  (getModelFamily VNull = Some Unknown /\ isThinkingModel VNull = Some false) /\
  (getModelFamily VUndefined = Some Unknown /\
   isThinkingModel VUndefined = Some false) /\
  (forall name : string,
     ~ contains (toLowerCase name) "claude" ->
     ~ contains (toLowerCase name) "gemini" ->
     getModelFamily (VString name) = Some Unknown /\
     isThinkingModel (VString name) = Some false).
Proof.
  split; [exact classifier_total|].
  do 3 (split; [split; reflexivity|]).
  intros name Hc Hg. split.
  - apply getModelFamily_cases. split; assumption.
  - destruct (classifier_total name) as [_ [[|] Hb]]; [|exact Hb].
    apply isThinkingModel_string in Hb. tauto.
Qed.

Lemma classifier_unknown_default_witness :
  getModelFamily (VString "gpt-4o") = Some Unknown /\
  isThinkingModel (VString "gpt-4o") = Some false.
Proof.
  destruct classifier_unknown_default as [_ [_ [_ [_ H]]]].
  apply (H "gpt-4o"); decide_contains.
Defined.

(** Letter case of the name as it stands does not count:
    "CLAUDE-THINKING" holds no lower-case "claude", and is classified
    'claude' and thinking. *)
Lemma classifier_upper_case_known :
  ~ contains "CLAUDE-THINKING" "claude" /\ ~ contains "CLAUDE-THINKING" "gemini" /\
  getModelFamily (VString "CLAUDE-THINKING") = Some Claude /\
  isThinkingModel (VString "CLAUDE-THINKING") = Some true.
Proof.
  split; [decide_contains|].
  split; [decide_contains|].
  split; reflexivity.
Qed.

(** C10: a model that thinks has a known family.  Whatever the argument
    (a string, [null], [undefined] or any other value), when
    [isThinkingModel] returns [true], [getModelFamily] returns 'claude' or
    'gemini'. *)
Theorem isThinkingModel_known_family (modelName : JSValue) :
  isThinkingModel modelName = Some true ->
  getModelFamily modelName = Some Claude \/ getModelFamily modelName = Some Gemini.
Proof.
  unfold isThinkingModel, getModelFamily.
  destruct (toLowerCaseOf (jsOr modelName (VString ""))) as [lower|]; [|discriminate].
  destruct (includes lower "claude"); [intros _; left; reflexivity|].
  destruct (includes lower "gemini"); [intros _; right; reflexivity|].
  discriminate.
Qed.

Lemma isThinkingModel_known_family_witness :
  isThinkingModel (VString "gemini-3-flash") = Some true /\
  (getModelFamily (VString "gemini-3-flash") = Some Claude \/
   getModelFamily (VString "gemini-3-flash") = Some Gemini).
Proof.
  split; [reflexivity|].
  apply (isThinkingModel_known_family (VString "gemini-3-flash")). reflexivity.
Defined.

(** ** Policy tables *)

Lemma MODEL_FALLBACK_MAP_to_list :
  Forall (fun entry => MODEL_FALLBACK_MAP !! entry.1 = Some entry.2) MODEL_FALLBACK_ENTRIES /\
  map_to_list MODEL_FALLBACK_MAP ≡ₚ MODEL_FALLBACK_ENTRIES.
Proof.
  split.
  - repeat constructor.
  - apply map_to_list_to_map.
    refine (bool_decide_unpack _ _). vm_compute. exact I.
Qed.

(** Every entry of the table satisfies [P] as soon as the six written
    entries do. *)
Lemma MODEL_FALLBACK_MAP_Forall (P : string -> string -> Prop) :
  Forall (fun entry => P entry.1 entry.2) MODEL_FALLBACK_ENTRIES ->
  map_Forall P MODEL_FALLBACK_MAP.
Proof.
  intros H. apply map_Forall_to_list.
  destruct MODEL_FALLBACK_MAP_to_list as [_ Hperm]. rewrite Hperm.
  eapply Forall_impl; [exact H|]. intros [key substitute]. exact id.
Qed.

(** C6: the table has six entries, each of them crosses families (a gemini
    key has a claude substitute, a claude key a gemini one), and
    "gemini-3-pro-high" and "claude-opus-4-5-thinking" are each other's
    substitute. *)
Theorem MODEL_FALLBACK_MAP_crosses_families :
  size MODEL_FALLBACK_MAP = 6 /\
  map_Forall
    (fun key substitute =>
       (getModelFamily (VString key) = Some Gemini /\
        getModelFamily (VString substitute) = Some Claude) \/
       (getModelFamily (VString key) = Some Claude /\
        getModelFamily (VString substitute) = Some Gemini))
    MODEL_FALLBACK_MAP /\
  MODEL_FALLBACK_MAP !! "gemini-3-pro-high" = Some "claude-opus-4-5-thinking" /\
  MODEL_FALLBACK_MAP !! "claude-opus-4-5-thinking" = Some "gemini-3-pro-high".
Proof.
  split.
  { destruct MODEL_FALLBACK_MAP_to_list as [_ Hperm].
    rewrite <- length_map_to_list, Hperm. reflexivity. }
  split; [|split; reflexivity].
  apply MODEL_FALLBACK_MAP_Forall.
  repeat (apply List.Forall_cons;
          [first [left; split; reflexivity | right; split; reflexivity]|]).
  apply List.Forall_nil.
Qed.

Lemma MODEL_FALLBACK_MAP_values_are_keys :
  map_Forall (fun _ substitute => is_Some (MODEL_FALLBACK_MAP !! substitute))
             MODEL_FALLBACK_MAP.
Proof.
  apply MODEL_FALLBACK_MAP_Forall.
  repeat (apply List.Forall_cons; [eexists; reflexivity|]).
  apply List.Forall_nil.
Qed.

Lemma fallbackHops_never_stuck (n : nat) (model : string) :
  is_Some (MODEL_FALLBACK_MAP !! model) -> is_Some (fallbackHops n model).
Proof.
  revert model. induction n as [|n IH]; intros model [substitute Hsub].
  - eexists. reflexivity.
  - simpl. rewrite Hsub. apply IH.
    exact (MODEL_FALLBACK_MAP_values_are_keys model substitute Hsub).
Qed.

(** C9: the table is closed under one hop.  The substitute of a mapped
    model is itself a key of the table, so a walk along the substitutes
    never runs out of them, however many hops it makes. *)
Theorem MODEL_FALLBACK_MAP_closed (key substitute : string) :
  MODEL_FALLBACK_MAP !! key = Some substitute ->
  is_Some (MODEL_FALLBACK_MAP !! substitute) /\
  forall n, is_Some (fallbackHops n key).
Proof.
  intros H. split.
  - exact (MODEL_FALLBACK_MAP_values_are_keys key substitute H).
  - intros n. apply fallbackHops_never_stuck. exists substitute. exact H.
Qed.

Lemma MODEL_FALLBACK_MAP_closed_witness :
  MODEL_FALLBACK_MAP !! "gemini-3-pro-low" = Some "claude-sonnet-4-5" /\
  is_Some (MODEL_FALLBACK_MAP !! "claude-sonnet-4-5") /\
  is_Some (fallbackHops 7 "gemini-3-pro-low").
Proof.
  split; [reflexivity|].
  destruct (MODEL_FALLBACK_MAP_closed "gemini-3-pro-low" "claude-sonnet-4-5" eq_refl)
    as [Hkey Hhops].
  split; [exact Hkey|exact (Hhops 7)].
Defined.

(** C7: the endpoint list has exactly two entries, the daily host first and
    the production host second, and the two differ. *)
Theorem ANTIGRAVITY_ENDPOINT_FALLBACKS_daily_first :
  length ANTIGRAVITY_ENDPOINT_FALLBACKS = 2 /\
  2 <= length ANTIGRAVITY_ENDPOINT_FALLBACKS /\
  ANTIGRAVITY_ENDPOINT_FALLBACKS !! 0 = Some ANTIGRAVITY_ENDPOINT_DAILY /\
  ANTIGRAVITY_ENDPOINT_FALLBACKS !! 1 = Some ANTIGRAVITY_ENDPOINT_PROD /\
  ANTIGRAVITY_ENDPOINT_FALLBACKS !! 0 <> Some ANTIGRAVITY_ENDPOINT_PROD /\
  contains ANTIGRAVITY_ENDPOINT_DAILY "daily" /\
  ~ contains ANTIGRAVITY_ENDPOINT_PROD "daily".
Proof.
  split; [reflexivity|]. split; [simpl; lia|].
  split; [reflexivity|]. split; [reflexivity|].
  split; [discriminate|].
  split; decide_contains.
Qed.

(** ** Configurable constants *)

(** What the knobs do: a truthy configured value wins, anything else (a
    missing object, a missing property, a falsy value) gives the default. *)
Lemma KNOBS_override_or_default (config : Config) :
  Forall (fun '(key, knob, builtin) =>
            let supplied := optionalField config key in
            (truthy supplied = true -> knob config = supplied) /\
            (truthy supplied = false -> knob config = builtin))
         KNOBS.
Proof.
  repeat (apply List.Forall_cons;
          [cbv zeta; cbv delta [TOKEN_REFRESH_INTERVAL_MS REQUEST_BODY_LIMIT DEFAULT_PORT
                                DEFAULT_COOLDOWN_MS MAX_RETRIES MAX_ACCOUNTS
                                MAX_WAIT_BEFORE_ERROR_MS jsOr] beta;
           split; intros ->; reflexivity|]).
  apply List.Forall_nil.
Qed.

(** The documented defaults, with no configuration at all. *)
Lemma KNOBS_defaults :
  TOKEN_REFRESH_INTERVAL_MS None = VNumber 300000 /\
  REQUEST_BODY_LIMIT None = VString "50mb" /\
  DEFAULT_COOLDOWN_MS None = VNumber 10000 /\
  MAX_RETRIES None = VNumber 5 /\
  MAX_ACCOUNTS None = VNumber 10 /\
  MAX_WAIT_BEFORE_ERROR_MS None = VNumber 120000 /\
  DEFAULT_PORT None = VNumber 8080.
Proof. repeat split; reflexivity. Qed.

(** C3 at a configuration that sets [maxRetries] to 0: the value is
    supplied, and [MAX_RETRIES] is the default 5, not the supplied 0.  The
    same happens to every knob. *)
Theorem MAX_RETRIES_zero_not_taken :
  let config : Config := Some {[ "maxRetries" := VNumber 0 ]} in
  optionalField config "maxRetries" = VNumber 0 /\
  MAX_RETRIES config = VNumber 5 /\
  Forall (fun '(key, knob, builtin) =>
            knob (Some {[ key := VNumber 0 ]}) = builtin /\ builtin <> VNumber 0)
         KNOBS.
Proof.
  split; [reflexivity|]. split; [reflexivity|].
  repeat (apply List.Forall_cons; [split; [reflexivity|discriminate]|]).
  apply List.Forall_nil.
Qed.

(** ** Paths *)

Lemma includes_cons_false (c : ascii) (s w : string) :
  includes (String c s) w = false -> includes s w = false.
Proof. cbn [includes]. intros H. apply orb_false_iff in H as [_ H]. exact H. Qed.

Lemma plainSegment_spec (seg : string) :
  plainSegment seg = true ->
  seg <> "" /\ seg <> "." /\ seg <> ".." /\ includes seg "/" = false.
Proof.
  unfold plainSegment. rewrite !andb_true_iff, !negb_true_iff, !String.eqb_neq.
  tauto.
Qed.

(** Splitting peels off a leading piece that has no separator. *)
Lemma splitOn_append (seg t first : string) (others : list string) :
  includes seg "/" = false ->
  splitOn "/" t = first :: others ->
  splitOn "/" (seg +:+ t) = (seg +:+ first) :: others.
Proof.
  intros Hseg Ht. induction seg as [|c seg IH].
  - rewrite !append_empty_l. exact Ht.
  - rewrite !append_cons. cbn [splitOn].
    destruct (Ascii.eqb_spec c "/") as [->|_]; [simpl in Hseg; discriminate Hseg|].
    rewrite IH by (eapply includes_cons_false; exact Hseg). reflexivity.
Qed.

Lemma splitOn_plain (seg : string) :
  includes seg "/" = false -> splitOn "/" seg = [seg].
Proof.
  intros Hseg. rewrite <- (append_empty_r seg) at 1.
  rewrite (splitOn_append seg "" "" []) by (assumption || reflexivity).
  rewrite append_empty_r. reflexivity.
Qed.

Lemma splitOn_segments (seg : string) (rest : list string) :
  forallb plainSegment (seg :: rest) = true ->
  splitOn "/" (seg +:+ absolutePath rest) = seg :: rest.
Proof.
  revert seg. induction rest as [|next rest IH]; intros seg Hplain.
  - simpl in Hplain. rewrite andb_true_r in Hplain.
    apply plainSegment_spec in Hplain as [_ [_ [_ Hseg]]].
    cbn [absolutePath]. rewrite append_empty_r. apply splitOn_plain, Hseg.
  - cbn [forallb] in Hplain. apply andb_true_iff in Hplain as [Hseg Hrest].
    apply plainSegment_spec in Hseg as [_ [_ [_ Hseg]]].
    cbn [absolutePath].
    rewrite (splitOn_append seg _ "" (next :: rest) Hseg).
    + rewrite append_empty_r. reflexivity.
    + change ("/" +:+ next +:+ absolutePath rest)
        with (String "/" (next +:+ absolutePath rest)).
      cbn [splitOn]. rewrite Ascii.eqb_refl, (IH next Hrest). reflexivity.
Qed.

Lemma splitOn_absolutePath (segs : list string) :
  segs <> [] -> forallb plainSegment segs = true ->
  splitOn "/" (absolutePath segs) = "" :: segs.
Proof.
  destruct segs as [|seg rest]; [congruence|]. intros _ Hplain.
  cbn [absolutePath].
  change ("/" +:+ seg +:+ absolutePath rest) with (String "/" (seg +:+ absolutePath rest)).
  cbn [splitOn]. rewrite Ascii.eqb_refl, (splitOn_segments seg rest Hplain). reflexivity.
Qed.

Lemma normalizeStep_plain (above : bool) (acc : list string) (seg : string) :
  plainSegment seg = true -> normalizeStep above acc seg = seg :: acc.
Proof.
  intros H. apply plainSegment_spec in H as [H1 [H2 [H3 _]]].
  unfold normalizeStep.
  apply String.eqb_neq in H1, H2, H3. rewrite H1, H2, H3. reflexivity.
Qed.

Lemma fold_normalizeStep_plain (above : bool) (segs acc : list string) :
  forallb plainSegment segs = true ->
  fold_left (normalizeStep above) segs acc = (rev segs ++ acc)%list.
Proof.
  revert acc. induction segs as [|seg segs IH]; intros acc Hplain; [reflexivity|].
  cbn [forallb] in Hplain. apply andb_true_iff in Hplain as [Hseg Hsegs].
  cbn [fold_left]. rewrite normalizeStep_plain, IH by assumption.
  cbn [rev]. rewrite <- app_assoc. reflexivity.
Qed.

Lemma absolutePath_joinWith (segs : list string) :
  segs <> [] -> absolutePath segs = "/" +:+ joinWith "/" segs.
Proof.
  induction segs as [|seg rest IH]; [congruence|]. intros _.
  destruct rest as [|next rest].
  - cbn [absolutePath joinWith]. rewrite append_empty_r. reflexivity.
  - cbn [absolutePath joinWith] in *. rewrite IH by discriminate. reflexivity.
Qed.

Lemma absolutePath_app (hs rs : list string) :
  absolutePath (hs ++ rs) = absolutePath hs +:+ absolutePath rs.
Proof.
  induction hs as [|seg hs IH]; [reflexivity|].
  cbn [absolutePath app]. fold (hs ++ rs)%list. rewrite IH.
  rewrite <- !append_assoc. reflexivity.
Qed.

Lemma lastUnit_append (s t : string) :
  t <> "" -> lastUnit (s +:+ t) = lastUnit t.
Proof.
  intros Ht. induction s as [|c s IH]; [reflexivity|].
  rewrite append_cons. cbn [lastUnit]. rewrite IH.
  destruct (s +:+ t) eqn:Hst; [|reflexivity].
  destruct s; [|discriminate]. rewrite append_empty_l in Hst. contradiction.
Qed.

Lemma lastUnit_includes (s : string) (c : ascii) :
  lastUnit s = Some c -> includes s (String c "") = true.
Proof.
  induction s as [|d s IH]; [discriminate|].
  cbn [lastUnit includes]. destruct s as [|e s].
  - intros [= ->]. simpl. rewrite Ascii.eqb_refl. reflexivity.
  - intros H. rewrite (IH H). apply orb_true_r.
Qed.

Lemma absolutePath_nonempty (segs : list string) :
  segs <> [] -> exists rest, absolutePath segs = String "/" rest.
Proof. destruct segs as [|seg segs]; [congruence|]. intros _. cbn. eauto. Qed.

(** A path spelled from plain segments does not end with a separator. *)
Lemma absolutePath_no_trailing_separator (segs : list string) :
  segs <> [] -> forallb plainSegment segs = true ->
  match lastUnit (absolutePath segs) with
  | Some c => Ascii.eqb c "/"
  | None => false
  end = false.
Proof.
  induction segs as [|seg rest IH]; [congruence|]. intros _ Hplain.
  cbn [forallb] in Hplain. apply andb_true_iff in Hplain as [Hseg Hrest].
  cbn [absolutePath]. destruct rest as [|next rest].
  - cbn [absolutePath]. rewrite append_empty_r.
    apply plainSegment_spec in Hseg as [Hne [_ [_ Hslash]]].
    rewrite lastUnit_append by assumption.
    destruct (lastUnit seg) as [c|] eqn:Hlast; [|reflexivity].
    destruct (Ascii.eqb_spec c "/") as [->|_]; [|reflexivity].
    apply lastUnit_includes in Hlast. congruence.
  - rewrite <- append_assoc, lastUnit_append.
    + apply IH; [discriminate|assumption].
    + destruct (absolutePath_nonempty (next :: rest)) as [tail ->]; discriminate.
Qed.

Lemma joinWith_nonempty (segs : list string) :
  segs <> [] -> forallb plainSegment segs = true -> joinWith "/" segs <> "".
Proof.
  destruct segs as [|seg rest]; [congruence|]. intros _ Hplain.
  cbn [forallb] in Hplain. apply andb_true_iff in Hplain as [Hseg _].
  apply plainSegment_spec in Hseg as [Hne _].
  destruct seg as [|c seg]; [contradiction|].
  destruct rest; cbn [joinWith]; [|rewrite append_cons]; discriminate.
Qed.

(** [normalize] leaves an absolute path of plain segments as it is. *)
Lemma normalize_absolutePath (segs : list string) :
  segs <> [] -> forallb plainSegment segs = true ->
  normalize (absolutePath segs) = absolutePath segs.
Proof.
  intros Hne Hplain.
  destruct (absolutePath_nonempty segs Hne) as [tail Htail].
  assert ((absolutePath segs =? "") = false) as Hempty
    by (rewrite Htail; reflexivity).
  assert (startsWith (absolutePath segs) "/" = true) as Habsolute
    by (rewrite Htail; reflexivity).
  pose proof (joinWith_nonempty segs Hne Hplain) as Hjoin.
  apply String.eqb_neq in Hjoin.
  unfold normalize.
  rewrite Hempty, Habsolute.
  rewrite (absolutePath_no_trailing_separator segs Hne Hplain).
  rewrite (splitOn_absolutePath segs Hne Hplain).
  cbn [negb fold_left]. change (normalizeStep false [] "") with (@nil string).
  rewrite fold_normalizeStep_plain, app_nil_r, rev_involutive by assumption.
  rewrite Hjoin, append_empty_r.
  symmetry. apply absolutePath_joinWith, Hne.
Qed.

(** Joining a relative path of plain segments onto a home of plain segments
    appends it after one separator. *)
Lemma posixJoin_plain (hs rs : list string) :
  hs <> [] -> rs <> [] ->
  forallb plainSegment hs = true -> forallb plainSegment rs = true ->
  posixJoin (absolutePath hs) (joinWith "/" rs) =
  absolutePath hs +:+ "/" +:+ joinWith "/" rs.
Proof.
  intros Hh Hr Hph Hpr. unfold posixJoin.
  destruct (absolutePath_nonempty hs Hh) as [tail Htail].
  assert ((absolutePath hs =? "") = false) as Hempty
    by (rewrite Htail; reflexivity).
  pose proof (joinWith_nonempty rs Hr Hpr) as Hjoin.
  apply String.eqb_neq in Hjoin. rewrite Hempty, Hjoin.
  rewrite <- (absolutePath_joinWith rs Hr), <- absolutePath_app.
  apply normalize_absolutePath.
  - destruct hs; [congruence|discriminate].
  - rewrite forallb_app, Hph, Hpr. reflexivity.
Qed.

(** ** Where an occurrence can lie in a concatenation *)

Lemma straddles_cons (b : string) (c : ascii) (w : string) :
  w <> "" -> straddles b (String c w) = startsWith b w || straddles b w.
Proof. destruct w; [congruence|reflexivity]. Qed.

Lemma startsWith_append_cases (a b w : string) :
  startsWith (a +:+ b) w = true ->
  startsWith a w = true \/ (a = "" /\ startsWith b w = true) \/ straddles b w = true.
Proof.
  revert w. induction a as [|c a IH]; intros w H.
  - right. left. split; [reflexivity|exact H].
  - destruct w as [|d w]; [left; reflexivity|].
    rewrite append_cons in H. cbn [startsWith] in H |- *.
    apply andb_true_iff in H as [Hd H]. rewrite Hd. cbn [andb].
    destruct (IH w H) as [Hin|[[-> Hb]|Hs]].
    + left. exact Hin.
    + destruct w as [|e w]; [left; reflexivity|].
      right. right. rewrite straddles_cons by discriminate. rewrite Hb. reflexivity.
    + right. right. destruct w as [|e w]; [discriminate Hs|].
      rewrite straddles_cons by discriminate. rewrite Hs. apply orb_true_r.
Qed.

(** An occurrence of [w] in [a +:+ b] lies in [a], lies in [b], or straddles
    the seam; so when none of the three is possible there is none. *)
Lemma includes_append_cases (a b w : string) :
  includes (a +:+ b) w = true ->
  includes a w = true \/ includes b w = true \/ straddles b w = true.
Proof.
  induction a as [|c a IH]; intros H.
  - right. left. exact H.
  - rewrite append_cons in H. cbn [includes] in H.
    apply orb_true_iff in H as [H|H].
    + rewrite <- append_cons in H.
      destruct (startsWith_append_cases _ _ _ H) as [Ha|[[Hemp _]|Hs]].
      * left. cbn [includes]. rewrite Ha. reflexivity.
      * discriminate Hemp.
      * right. right. exact Hs.
    + destruct (IH H) as [Ha|Hrest]; [|right; exact Hrest].
      left. cbn [includes]. rewrite Ha. apply orb_true_r.
Qed.

Lemma includes_append_false (a b w : string) :
  includes a w = false -> includes b w = false -> straddles b w = false ->
  includes (a +:+ b) w = false.
Proof.
  intros Ha Hb Hs. destruct (includes (a +:+ b) w) eqn:H; [|reflexivity].
  destruct (includes_append_cases a b w H) as [?|[?|?]]; congruence.
Qed.

Lemma includes_append_r (a b w : string) :
  includes b w = true -> includes (a +:+ b) w = true.
Proof.
  intros H. apply includes_spec in H as [x [y ->]]. apply includes_spec.
  exists (a +:+ x), y. rewrite append_assoc. reflexivity.
Qed.

(** ** Platform resolver *)

(** The three branches of [getAntigravityDbPath] on a POSIX host whose home
    directory is an absolute path of plain segments. *)
Lemma getAntigravityDbPath_branches (plat : string) (hs : list string) :
  hs <> [] -> forallb plainSegment hs = true ->
  getAntigravityDbPath (posixHost plat (absolutePath hs)) =
  absolutePath hs +:+
    (if plat =? "darwin"
     then "/Library/Application Support/Antigravity/User/globalStorage/state.vscdb"
     else if plat =? "win32"
     then "/AppData/Roaming/Antigravity/User/globalStorage/state.vscdb"
     else "/.config/Antigravity/User/globalStorage/state.vscdb").
Proof.
  intros Hne Hplain. unfold getAntigravityDbPath, posixHost. cbn [platform homedir join].
  destruct (plat =? "darwin"); [|destruct (plat =? "win32")].
  - apply (posixJoin_plain hs
      ["Library"; "Application Support"; "Antigravity"; "User"; "globalStorage"; "state.vscdb"]);
      [assumption|discriminate|assumption|reflexivity].
  - apply (posixJoin_plain hs
      ["AppData"; "Roaming"; "Antigravity"; "User"; "globalStorage"; "state.vscdb"]);
      [assumption|discriminate|assumption|reflexivity].
  - apply (posixJoin_plain hs
      [".config"; "Antigravity"; "User"; "globalStorage"; "state.vscdb"]);
      [assumption|discriminate|assumption|reflexivity].
Qed.

(** The default of [ACCOUNT_CONFIG_PATH], when the configuration names no
    path: accounts.json under the home's .config/antigravity-proxy. *)
Lemma ACCOUNT_CONFIG_PATH_default (plat : string) (hs : list string) (config : Config) :
  hs <> [] -> forallb plainSegment hs = true ->
  truthy (optionalField config "accountConfigPath") = false ->
  ACCOUNT_CONFIG_PATH (posixHost plat (absolutePath hs)) config =
  VString (absolutePath hs +:+ "/.config/antigravity-proxy/accounts.json").
Proof.
  intros Hne Hplain Hfalsy. unfold ACCOUNT_CONFIG_PATH, jsOr. rewrite Hfalsy.
  cbn [posixHost homedir join]. f_equal.
  apply (posixJoin_plain hs [".config"; "antigravity-proxy"; "accounts.json"]);
    [assumption|discriminate|assumption|reflexivity].
Qed.

(** C5, as the code has it: on a POSIX host whose home directory is an
    absolute path of plain segments, [getAntigravityDbPath] returns the home
    followed by "/Library/Application Support/Antigravity/User/globalStorage/state.vscdb"
    on 'darwin', by "/AppData/Roaming/Antigravity/User/globalStorage/state.vscdb"
    on 'win32', and by "/.config/Antigravity/User/globalStorage/state.vscdb" on
    every other platform.  When the home itself contains none of
    "Library/Application Support", "AppData/Roaming" and ".config", the path
    contains the first only on 'darwin', the second only on 'win32' and the
    third only on the other platforms. *)
Theorem getAntigravityDbPath_posix (plat : string) (hs : list string) :
  hs <> [] -> forallb plainSegment hs = true ->
  let home := absolutePath hs in
  let path := getAntigravityDbPath (posixHost plat home) in
  (plat = "darwin" ->
     path = home +:+ "/Library/Application Support/Antigravity/User/globalStorage/state.vscdb") /\
  (plat = "win32" ->
     path = home +:+ "/AppData/Roaming/Antigravity/User/globalStorage/state.vscdb") /\
  (plat <> "darwin" -> plat <> "win32" ->
     path = home +:+ "/.config/Antigravity/User/globalStorage/state.vscdb") /\
  (~ contains home MARKER_MACOS -> ~ contains home MARKER_WINDOWS ->
   ~ contains home MARKER_OTHER ->
     (contains path MARKER_MACOS <-> plat = "darwin") /\
     (contains path MARKER_WINDOWS <-> plat = "win32") /\
     (contains path MARKER_OTHER <-> plat <> "darwin" /\ plat <> "win32")).
Proof.
  intros Hne Hplain home path.
  assert (path = home +:+
            (if plat =? "darwin"
             then "/Library/Application Support/Antigravity/User/globalStorage/state.vscdb"
             else if plat =? "win32"
             then "/AppData/Roaming/Antigravity/User/globalStorage/state.vscdb"
             else "/.config/Antigravity/User/globalStorage/state.vscdb")) as Hpath
    by (apply getAntigravityDbPath_branches; assumption).
  clearbody path. subst path.
  split; [intros ->; reflexivity|].
  split; [intros ->; reflexivity|].
  split.
  { intros Hd Hw. apply String.eqb_neq in Hd, Hw. rewrite Hd, Hw. reflexivity. }
  intros Hm Hw Ho.
  apply includes_false_spec in Hm, Hw, Ho.
  rewrite <- !includes_spec.
  destruct (String.eqb_spec plat "darwin") as [Hd|Hd];
    [|destruct (String.eqb_spec plat "win32") as [Hwin|Hwin]].
  - split; [|split].
    + split; [intros _; exact Hd|intros _; apply includes_append_r; reflexivity].
    + rewrite includes_append_false by (assumption || reflexivity).
      split; [discriminate|]. intros ->. discriminate Hd.
    + rewrite includes_append_false by (assumption || reflexivity).
      split; [discriminate|]. intros [Hn _]. contradiction.
  - split; [|split].
    + rewrite includes_append_false by (assumption || reflexivity).
      split; [discriminate|]. intros ->. discriminate Hwin.
    + split; [intros _; exact Hwin|intros _; apply includes_append_r; reflexivity].
    + rewrite includes_append_false by (assumption || reflexivity).
      split; [discriminate|]. intros [_ Hn]. contradiction.
  - split; [|split].
    + rewrite includes_append_false by (assumption || reflexivity).
      split; [discriminate|contradiction].
    + rewrite includes_append_false by (assumption || reflexivity).
      split; [discriminate|contradiction].
    + split; [intros _; split; assumption|intros _; apply includes_append_r; reflexivity].
Qed.

Lemma getAntigravityDbPath_posix_witness :
  ["Users"; "ada"] <> [] /\
  forallb plainSegment ["Users"; "ada"] = true /\
  getAntigravityDbPath (posixHost "win32" "/Users/ada") =
    "/Users/ada/AppData/Roaming/Antigravity/User/globalStorage/state.vscdb" /\
  (contains (getAntigravityDbPath (posixHost "linux" "/Users/ada")) MARKER_OTHER <->
     "linux" <> "darwin" /\ "linux" <> "win32").
Proof.
  split; [discriminate|]. split; [reflexivity|].
  assert (["Users"; "ada"] <> []) as Hne by discriminate.
  split.
  - apply (getAntigravityDbPath_posix "win32" ["Users"; "ada"] Hne eq_refl). reflexivity.
  - apply (getAntigravityDbPath_posix "linux" ["Users"; "ada"] Hne eq_refl);
      decide_contains.
Defined.

(** C5, the claim as written fails twice.  The file is state.vscdb, so on
    'darwin' with home "/Users/ada" the result is not
    "<home>/Library/Application Support/<App>/User/globalStorage/state.db"
    for any <App>.  And the three directories are not exclusive: with home
    "/srv/.config" the 'darwin' path contains both
    "Library/Application Support" and ".config".  Besides, [join] normalizes:
    after the home "/home/ada/" comes one separator, not two. *)
Lemma getAntigravityDbPath_not_state_db :
  ~ (exists app,
       getAntigravityDbPath (posixHost "darwin" "/Users/ada") =
       "/Users/ada" +:+ "/Library/Application Support/" +:+ app +:+
       "/User/globalStorage/state.db") /\
  contains (getAntigravityDbPath (posixHost "darwin" "/srv/.config")) MARKER_MACOS /\
  contains (getAntigravityDbPath (posixHost "darwin" "/srv/.config")) MARKER_OTHER /\
  getAntigravityDbPath (posixHost "linux" "/home/ada/") <>
    "/home/ada/" +:+ "/.config/Antigravity/User/globalStorage/state.vscdb".
Proof.
  split.
  - intros [app Happ].
    assert (includes (getAntigravityDbPath (posixHost "darwin" "/Users/ada")) "state.db"
            = true) as Hdb.
    { rewrite Happ. apply includes_spec.
      exists ("/Users/ada" +:+ "/Library/Application Support/" +:+ app +:+
              "/User/globalStorage/"), "".
      rewrite !append_assoc. reflexivity. }
    vm_compute in Hdb. discriminate Hdb.
  - split; [decide_contains|]. split; [decide_contains|]. discriminate.
Qed.

(** * Further properties *)

(** ** Configurable constants *)

Lemma normalize_nonempty (path : string) : normalize path <> "".
Proof.
  unfold normalize.
  destruct (path =? ""); [discriminate|].
  destruct (joinWith "/" _ =? "") eqn:Hp.
  - destruct (startsWith path "/"); [discriminate|].
    destruct (match lastUnit path with Some c => Ascii.eqb c "/" | None => false end);
      discriminate.
  - apply String.eqb_neq in Hp.
    destruct (startsWith path "/"); [discriminate|].
    rewrite append_empty_l.
    intros Hempty. destruct (joinWith "/" _); [contradiction|].
    rewrite append_cons in Hempty. discriminate.
Qed.

Lemma posixJoin_nonempty (a b : string) : posixJoin a b <> "".
Proof.
  unfold posixJoin. destruct (a =? ""), (b =? "");
    [discriminate|apply normalize_nonempty..].
Qed.

(** No knob can be switched off from the configuration: whatever the
    configuration holds, each of the seven knobs is a truthy value (never 0,
    the empty string, [false], [null] or [undefined]), and so is
    [ACCOUNT_CONFIG_PATH] on a POSIX host. *)
Theorem KNOBS_always_truthy (config : Config) :
  Forall (fun '(key, knob, builtin) => truthy (knob config) = true) KNOBS /\
  forall plat home, truthy (ACCOUNT_CONFIG_PATH (posixHost plat home) config) = true.
Proof.
  split.
  - repeat (apply List.Forall_cons;
            [cbv delta [TOKEN_REFRESH_INTERVAL_MS REQUEST_BODY_LIMIT DEFAULT_PORT
                        DEFAULT_COOLDOWN_MS MAX_RETRIES MAX_ACCOUNTS
                        MAX_WAIT_BEFORE_ERROR_MS jsOr] beta;
             match goal with
             | |- truthy (if truthy ?v then _ else _) = true =>
                 destruct (truthy v) eqn:Hv; [exact Hv|reflexivity]
             end|]).
    apply List.Forall_nil.
  - intros plat home. unfold ACCOUNT_CONFIG_PATH, jsOr.
    destruct (truthy (optionalField config "accountConfigPath")) eqn:Hv; [exact Hv|].
    cbn [truthy posixHost homedir join]. apply negb_true_iff, String.eqb_neq.
    apply posixJoin_nonempty.
Qed.

(** ** Model classifier: arguments that are not strings *)

Lemma falsy_as_empty (v : JSValue) :
  truthy v = false -> jsOr v (VString "") = VString "".
Proof. unfold jsOr. intros ->. reflexivity. Qed.

(** On primitive arguments ([undefined], [null], a boolean, a number, a
    string; objects are left out) the two classifiers throw on the same
    ones, the truthy primitives that are not strings (a non-zero number,
    [true]); every falsy argument (0, [false], [null], [undefined], the
    empty string) is read as the empty name: 'unknown' and not thinking. *)
Theorem classifier_throws_on_truthy_non_strings (v : JSValue) :
  (getModelFamily v = None <-> truthy v = true /\ isString v = false) /\
  (isThinkingModel v = None <-> truthy v = true /\ isString v = false) /\
  (truthy v = false ->
     getModelFamily v = Some Unknown /\ isThinkingModel v = Some false).
Proof.
  assert (truthy v = false ->
          getModelFamily v = Some Unknown /\ isThinkingModel v = Some false) as Hfalsy.
  { intros Hv. unfold getModelFamily, isThinkingModel.
    rewrite (falsy_as_empty v Hv). split; reflexivity. }
  split; [|split; [|exact Hfalsy]].
  - destruct v as [| |b|n|s]; cbn [isString].
    1,2: destruct (Hfalsy eq_refl) as [-> _]; split; [discriminate|intros [? _]; discriminate].
    + destruct b.
      * split; [split; reflexivity|reflexivity].
      * destruct (Hfalsy eq_refl) as [-> _]. split; [discriminate|intros [? _]; discriminate].
    + destruct (truthy (VNumber n)) eqn:Hn.
      * unfold getModelFamily, jsOr. rewrite Hn. split; [split; reflexivity|reflexivity].
      * destruct (Hfalsy eq_refl) as [-> _]. split; [discriminate|intros [? _]; discriminate].
    + destruct (classifier_total s) as [[f ->] _].
      split; [discriminate|intros [_ ?]; discriminate].
  - destruct v as [| |b|n|s]; cbn [isString].
    1,2: destruct (Hfalsy eq_refl) as [_ ->]; split; [discriminate|intros [? _]; discriminate].
    + destruct b.
      * split; [split; reflexivity|reflexivity].
      * destruct (Hfalsy eq_refl) as [_ ->]. split; [discriminate|intros [? _]; discriminate].
    + destruct (truthy (VNumber n)) eqn:Hn.
      * unfold isThinkingModel, jsOr. rewrite Hn. split; [split; reflexivity|reflexivity].
      * destruct (Hfalsy eq_refl) as [_ ->]. split; [discriminate|intros [? _]; discriminate].
    + destruct (classifier_total s) as [_ [b ->]].
      split; [discriminate|intros [_ ?]; discriminate].
Qed.

(** ** Model classifier: letter case *)

Lemma toLowerCaseUnit_idempotent (c : ascii) :
  toLowerCaseUnit (toLowerCaseUnit c) = toLowerCaseUnit c.
Proof. destruct c as [[] [] [] [] [] [] [] []]; reflexivity. Qed.

Lemma toLowerCase_idempotent (s : string) :
  toLowerCase (toLowerCase s) = toLowerCase s.
Proof.
  induction s as [|c s IH]; [reflexivity|].
  cbn [toLowerCase]. rewrite toLowerCaseUnit_idempotent, IH. reflexivity.
Qed.

Lemma classifier_by_lower_case (s t : string) :
  toLowerCase s = toLowerCase t ->
  getModelFamily (VString s) = getModelFamily (VString t) /\
  isThinkingModel (VString s) = isThinkingModel (VString t).
Proof.
  intros H. rewrite !getModelFamily_string, !isThinkingModel_bool, H.
  split; reflexivity.
Qed.

(** The classifiers do not see letter case: a name and its lower-cased form
    get the same family and the same thinking flag, and so do any two names
    with the same lower-cased form. *)
Theorem classifier_ignores_case (s : string) :
  getModelFamily (VString (toLowerCase s)) = getModelFamily (VString s) /\
  isThinkingModel (VString (toLowerCase s)) = isThinkingModel (VString s) /\
  forall t, toLowerCase t = toLowerCase s ->
            getModelFamily (VString t) = getModelFamily (VString s) /\
            isThinkingModel (VString t) = isThinkingModel (VString s).
Proof.
  destruct (classifier_by_lower_case (toLowerCase s) s (toLowerCase_idempotent s))
    as [Hf Ht].
  split; [exact Hf|]. split; [exact Ht|].
  intros t H. apply classifier_by_lower_case, H.
Qed.

(** ** Model classifier: names inside longer names *)

Lemma contains_inside (a s b w : string) :
  contains s w -> contains (a +:+ s +:+ b) w.
Proof.
  intros [x [y ->]]. exists (a +:+ x), (y +:+ b).
  rewrite !append_assoc. reflexivity.
Qed.

(** A 'claude' name stays 'claude' inside any longer name (a route prefix, a
    tag or a date after it), and a name that is 'unknown' has only 'unknown'
    parts.  A 'gemini' name does not stay 'gemini': "gemini-3-flash" followed
    by "-via-claude" is 'claude'. *)
Theorem getModelFamily_claude_inside (s a b : string) :
  (getModelFamily (VString s) = Some Claude ->
   getModelFamily (VString (a +:+ s +:+ b)) = Some Claude) /\
  (getModelFamily (VString (a +:+ s +:+ b)) = Some Unknown ->
   getModelFamily (VString s) = Some Unknown) /\
  (getModelFamily (VString "gemini-3-flash") = Some Gemini /\
   getModelFamily (VString ("gemini-3-flash" +:+ "-via-claude")) = Some Claude).
Proof.
  assert (forall w, contains (toLowerCase s) w ->
                    contains (toLowerCase (a +:+ s +:+ b)) w) as Hinside.
  { intros w H. rewrite !toLowerCase_append. apply contains_inside, H. }
  split; [|split; [|split; reflexivity]].
  - intros H. apply getModelFamily_cases in H. apply getModelFamily_cases, Hinside, H.
  - intros H. apply getModelFamily_cases in H as [Hc Hg].
    apply getModelFamily_cases. split; intros Hs; [apply Hc|apply Hg]; apply Hinside, Hs.
Qed.

(** ** Thinking survives a suffix *)

Lemma length_append (s t : string) :
  String.length (s +:+ t) = String.length s + String.length t.
Proof.
  induction s as [|c s IH]; [reflexivity|].
  rewrite append_cons. cbn [String.length]. rewrite IH. reflexivity.
Qed.

(** When [s +:+ t] starts with [w] and [s] is at least as long as [w], it
    is [s] that starts with [w]. *)
Lemma append_prefix_inside (s t w x : string) :
  s +:+ t = w +:+ x -> String.length w <= String.length s ->
  exists r, s = w +:+ r.
Proof.
  revert s. induction w as [|c w IH]; intros s Heq Hlen.
  - exists s. reflexivity.
  - destruct s as [|d s]; [cbn in Hlen; lia|].
    rewrite !append_cons in Heq. injection Heq as -> Heq.
    cbn [String.length] in Hlen.
    destruct (IH s Heq ltac:(lia)) as [r ->].
    exists r. reflexivity.
Qed.

Lemma includes_append_l (s t w : string) :
  includes s w = true -> includes (s +:+ t) w = true.
Proof.
  intros H. apply includes_spec in H as [x [y ->]]. apply includes_spec.
  exists x, (y +:+ t). rewrite !append_assoc. reflexivity.
Qed.

Lemma takeDigits_append (ds t : string) :
  allDigits ds = true -> takeDigits (ds +:+ t) = ds +:+ takeDigits t.
Proof.
  unfold allDigits. induction ds as [|c ds IH]; intros Hds; [reflexivity|].
  cbn [list_ascii_of_string forallb] in Hds. apply andb_true_iff in Hds as [Hc Hds].
  rewrite !append_cons. cbn [takeDigits]. rewrite Hc, IH by assumption. reflexivity.
Qed.

Lemma parseDigits_grows (s : string) (acc : N) : (acc <= parseDigits acc s)%N.
Proof.
  revert acc. induction s as [|c s IH]; intros acc; cbn [parseDigits]; [lia|].
  destruct (isDigit c); [|lia].
  specialize (IH (acc * 10 + digitValue c)%N). lia.
Qed.

Lemma parseDigits_append (ds t : string) (acc : N) :
  allDigits ds = true ->
  parseDigits acc (ds +:+ t) = parseDigits (parseDigits acc ds) t.
Proof.
  unfold allDigits. revert acc. induction ds as [|c ds IH]; intros acc Hds; [reflexivity|].
  cbn [list_ascii_of_string forallb] in Hds. apply andb_true_iff in Hds as [Hc Hds].
  rewrite append_cons. cbn [parseDigits]. rewrite Hc. apply IH, Hds.
Qed.

(** Digits that follow a run can only raise its value. *)
Lemma parseInt_append (ds t : string) (n : N) :
  digitRun ds -> parseInt ds = Some n ->
  exists n', parseInt (ds +:+ t) = Some n' /\ (n <= n')%N.
Proof.
  intros Hrun Hparse. pose proof Hrun as [Hne Hds].
  rewrite (parseInt_digitRun ds Hrun) in Hparse. injection Hparse as <-.
  destruct ds as [|c ds]; [contradiction|].
  exists (parseDigits 0 (String c ds +:+ t)). split.
  - rewrite append_cons. unfold parseInt.
    unfold allDigits in Hds. cbn [list_ascii_of_string forallb] in Hds.
    apply andb_true_iff in Hds as [-> _]. reflexivity.
  - rewrite parseDigits_append by exact Hds. apply parseDigits_grows.
Qed.

Lemma matchVersionHere_append (s t ds : string) :
  matchVersionHere s = Some ds ->
  exists more, matchVersionHere (s +:+ t) = Some (ds +:+ more).
Proof.
  intros H. apply matchVersionHere_Some in H as [b [-> [[Hne Hds] _]]].
  exists (takeDigits (b +:+ t)). unfold matchVersionHere.
  assert (dropPrefix "gemini-" (("gemini-" +:+ ds +:+ b) +:+ t) = Some (ds +:+ b +:+ t)) as ->.
  { apply dropPrefix_spec. rewrite !append_assoc. reflexivity. }
  rewrite takeDigits_append by exact Hds.
  destruct ds as [|c ds]; [contradiction|]. rewrite append_cons. reflexivity.
Qed.

Lemma firstVersionMarker_length (s ds : string) :
  firstVersionMarker s ds -> 8 <= String.length s.
Proof.
  intros [a [b [-> [[Hne _] _]]]]. rewrite !length_append.
  destruct ds as [|c ds]; [contradiction|]. cbn [String.length]. lia.
Qed.

(** A suffix leaves the leftmost marker where it is and can only add digits
    to it. *)
Lemma matchGeminiVersion_append (s t ds : string) :
  matchGeminiVersion s = Some ds ->
  exists more, matchGeminiVersion (s +:+ t) = Some (ds +:+ more).
Proof.
  induction s as [|c s IH]; rewrite matchGeminiVersion_unfold.
  - destruct (matchVersionHere "") eqn:Hhere; discriminate.
  - destruct (matchVersionHere (String c s)) as [here|] eqn:Hhere.
    + intros [= ->]. destruct (matchVersionHere_append _ t _ Hhere) as [more Hmore].
      exists more. rewrite matchGeminiVersion_unfold, Hmore. reflexivity.
    + intros Hlater. destruct (IH Hlater) as [more Hmore]. exists more.
      rewrite matchGeminiVersion_unfold.
      destruct (matchVersionHere (String c s +:+ t)) as [d|] eqn:Hnow.
      * exfalso.
        apply matchVersionHere_Some in Hnow as [b [Heq [[Hne Hd] _]]].
        destruct d as [|d0 d]; [contradiction|].
        apply matchGeminiVersion_spec, firstVersionMarker_length in Hlater.
        change ("gemini-" +:+ String d0 d +:+ b)
          with (("gemini-" +:+ String d0 "") +:+ d +:+ b) in Heq.
        apply append_prefix_inside in Heq as [r Hr];
          [|change (String.length ("gemini-" +:+ String d0 "")) with 8;
            cbn [String.length]; lia].
        rewrite matchVersionHere_None in Hhere.
        specialize (Hhere (String d0 r) Hr). cbn in Hhere.
        unfold allDigits in Hd. cbn [list_ascii_of_string forallb] in Hd.
        apply andb_true_iff in Hd as [Hd0 _]. congruence.
      * rewrite append_cons. exact Hmore.
Qed.

Lemma versionAtLeast3_append (s t : string) :
  versionAtLeast3 s = true -> versionAtLeast3 (s +:+ t) = true.
Proof.
  unfold versionAtLeast3.
  destruct (matchGeminiVersion s) as [ds|] eqn:Hmatch; [|discriminate].
  destruct (parseInt ds) as [n|] eqn:Hparse; [|discriminate].
  intros Hle. apply N.leb_le in Hle.
  destruct (matchGeminiVersion_append s t ds Hmatch) as [more ->].
  apply matchGeminiVersion_spec in Hmatch as [_ [_ [_ [Hrun _]]]].
  destruct (parseInt_append ds more n Hrun Hparse) as [n' [-> Hn']].
  apply N.leb_le. lia.
Qed.

(** Text after a thinking name never takes the thinking away: when
    [isThinkingModel] is true of a name it is true of the name followed by
    anything (a tag, a date, more digits). *)
Theorem isThinkingModel_suffix (s t : string) :
  isThinkingModel (VString s) = Some true ->
  isThinkingModel (VString (s +:+ t)) = Some true.
Proof.
  rewrite !isThinkingModel_bool, toLowerCase_append.
  set (ls := toLowerCase s). set (lt := toLowerCase t).
  intros [= H]. f_equal.
  apply orb_true_iff in H as [H|H]; apply orb_true_iff.
  - left. apply andb_true_iff in H as [Hc Ht].
    rewrite (includes_append_l ls lt _ Hc), (includes_append_l ls lt _ Ht). reflexivity.
  - right. apply andb_true_iff in H as [Hg H].
    rewrite (includes_append_l ls lt _ Hg). cbn [andb].
    apply orb_true_iff in H as [Ht|Hv]; apply orb_true_iff.
    + left. apply includes_append_l, Ht.
    + right. apply versionAtLeast3_append, Hv.
Qed.

Lemma isThinkingModel_suffix_witness :
  isThinkingModel (VString "gemini-3") = Some true /\
  isThinkingModel (VString ("gemini-3" +:+ "0-preview")) = Some true.
Proof.
  split; [reflexivity|].
  apply (isThinkingModel_suffix "gemini-3" "0-preview"). reflexivity.
Defined.

(** ** Numbered gemini names *)

Lemma parseDigits_stop (acc : N) (rest : string) :
  noDigitAhead rest -> parseDigits acc rest = acc.
Proof. destruct rest as [|c rest]; [reflexivity|]. cbn. intros ->. reflexivity. Qed.

Lemma parseDigits_of_uint_acc (d : Decimal.uint) (p : positive) (rest : string) :
  noDigitAhead rest ->
  parseDigits (Npos p) (DecimalString.NilEmpty.string_of_uint d +:+ rest) =
  Npos (Pos.of_uint_acc d p).
Proof.
  intros Hrest. revert p.
  induction d as [|d IH|d IH|d IH|d IH|d IH|d IH|d IH|d IH|d IH|d IH]; intros p;
    cbn [DecimalString.NilEmpty.string_of_uint Pos.of_uint_acc].
  1: rewrite append_empty_l; apply parseDigits_stop, Hrest.
  all: rewrite append_cons; cbn [parseDigits].
  all: match goal with
       | |- context [isDigit ?c] => change (isDigit c) with true; cbv iota
       end.
  all: rewrite <- IH; f_equal.
  all: match goal with
       | |- context [digitValue ?c] =>
           let v := eval vm_compute in (digitValue c) in change (digitValue c) with v
       end; lia.
Qed.

Lemma parseDigits_of_uint (d : Decimal.uint) (rest : string) :
  noDigitAhead rest ->
  parseDigits 0 (DecimalString.NilEmpty.string_of_uint d +:+ rest) = Pos.of_uint d.
Proof.
  intros Hrest.
  induction d as [|d IH|d IH|d IH|d IH|d IH|d IH|d IH|d IH|d IH|d IH];
    cbn [DecimalString.NilEmpty.string_of_uint Pos.of_uint].
  1: rewrite append_empty_l; apply parseDigits_stop, Hrest.
  1: rewrite append_cons; exact IH.
  all: rewrite append_cons; cbn [parseDigits].
  all: match goal with
       | |- context [isDigit ?c] => change (isDigit c) with true; cbv iota
       end.
  all: rewrite <- (parseDigits_of_uint_acc d _ rest Hrest); reflexivity.
Qed.

Lemma string_of_uint_allDigits (d : Decimal.uint) :
  allDigits (DecimalString.NilEmpty.string_of_uint d) = true.
Proof.
  unfold allDigits.
  induction d; cbn [DecimalString.NilEmpty.string_of_uint list_ascii_of_string forallb];
    [reflexivity|rewrite IHd; reflexivity..].
Qed.

(** A decimal numeral is a run of digits that reads back as its number. *)
Lemma decimal_digitRun (n : N) : digitRun (decimal n).
Proof.
  split; [|apply string_of_uint_allDigits].
  unfold decimal. destruct n as [|p]; [discriminate|].
  cbn [N.to_uint]. pose proof (DecimalPos.Unsigned.to_uint_nonnil p) as Hnil.
  destruct (Pos.to_uint p); [contradiction|discriminate..].
Qed.

Lemma parseDigits_decimal (n : N) (rest : string) :
  noDigitAhead rest -> parseDigits 0 (decimal n +:+ rest) = n.
Proof.
  intros Hrest. unfold decimal. rewrite parseDigits_of_uint by exact Hrest.
  apply DecimalN.Unsigned.of_to.
Qed.

Lemma zeros_allDigits (k : nat) : allDigits (zeros k) = true.
Proof. unfold allDigits. induction k as [|k IH]; [reflexivity|exact IH]. Qed.

Lemma parseDigits_zeros (k : nat) (s : string) :
  parseDigits 0 (zeros k +:+ s) = parseDigits 0 s.
Proof. induction k as [|k IH]; [reflexivity|exact IH]. Qed.

Lemma allDigits_append (a b : string) :
  allDigits a = true -> allDigits b = true -> allDigits (a +:+ b) = true.
Proof.
  unfold allDigits. intros Ha Hb. induction a as [|c a IH]; [exact Hb|].
  rewrite append_cons. cbn [list_ascii_of_string forallb] in Ha |- *.
  apply andb_true_iff in Ha as [-> Ha]. exact (IH Ha).
Qed.

(** A name whose lower-cased form is "gemini-", a number (leading zeros
    allowed) and a rest that does not go on with a digit, and that has no
    "thinking" in it, is a thinking model exactly when the number is at
    least 3: "gemini-10" and "gemini-03" are, "gemini-2.5" and "gemini-002"
    are not. *)
Theorem isThinkingModel_gemini_numbered (name rest : string) (k : nat) (n : N) :
  toLowerCase name = "gemini-" +:+ zeros k +:+ decimal n +:+ rest ->
  noDigitAhead rest ->
  ~ contains (toLowerCase name) "thinking" ->
  isThinkingModel (VString name) = Some (3 <=? n)%N.
Proof.
  intros Hname Hrest Hthinking. apply includes_false_spec in Hthinking.
  rewrite isThinkingModel_bool, Hthinking, andb_false_r. cbn [orb].
  assert (includes (toLowerCase name) "gemini" = true) as ->.
  { apply includes_spec. exists "", ("-" +:+ zeros k +:+ decimal n +:+ rest).
    rewrite Hname. reflexivity. }
  cbn [andb]. f_equal. unfold versionAtLeast3.
  destruct (decimal_digitRun n) as [Hne Hdigits].
  assert (digitRun (zeros k +:+ decimal n)) as Hrun.
  { split; [|apply allDigits_append; [apply zeros_allDigits|exact Hdigits]].
    destruct k; [exact Hne|discriminate]. }
  assert (matchGeminiVersion (toLowerCase name) = Some (zeros k +:+ decimal n)) as ->.
  { rewrite matchGeminiVersion_unfold.
    assert (matchVersionHere (toLowerCase name) = Some (zeros k +:+ decimal n)) as ->;
      [|reflexivity].
    apply matchVersionHere_Some. exists rest.
    rewrite Hname, !append_assoc. split; [reflexivity|]. split; assumption. }
  rewrite (parseInt_digitRun _ Hrun).
  rewrite <- (append_empty_r (zeros k +:+ decimal n)), append_assoc.
  rewrite parseDigits_zeros, parseDigits_decimal by exact I. reflexivity.
Qed.

Lemma isThinkingModel_gemini_numbered_witness :
  toLowerCase "Gemini-010-Ultra" = "gemini-" +:+ zeros 1 +:+ decimal 10 +:+ "-ultra" /\
  noDigitAhead "-ultra" /\
  ~ contains (toLowerCase "Gemini-010-Ultra") "thinking" /\
  isThinkingModel (VString "Gemini-010-Ultra") = Some (3 <=? 10)%N.
Proof.
  assert (~ contains (toLowerCase "Gemini-010-Ultra") "thinking") as Hthinking
    by decide_contains.
  split; [reflexivity|]. split; [reflexivity|]. split; [exact Hthinking|].
  exact (isThinkingModel_gemini_numbered "Gemini-010-Ultra" "-ultra" 1 10
           eq_refl eq_refl Hthinking).
Defined.

(** ** User agent *)

Lemma append_separator_inj (p1 p2 a1 a2 : string) :
  includes p1 "/" = false -> includes p2 "/" = false ->
  p1 +:+ "/" +:+ a1 = p2 +:+ "/" +:+ a2 -> p1 = p2 /\ a1 = a2.
Proof.
  revert p2. induction p1 as [|c p1 IH]; intros [|d p2] H1 H2 Heq.
  - change (String "/" a1 = String "/" a2) in Heq.
    injection Heq as ->. split; reflexivity.
  - change (String "/" a1 = String d (p2 +:+ "/" +:+ a2)) in Heq.
    injection Heq as <- _. cbn in H2. discriminate H2.
  - change (String c (p1 +:+ "/" +:+ a1) = String "/" a2) in Heq.
    injection Heq as -> _. cbn in H1. discriminate H1.
  - change (String c (p1 +:+ "/" +:+ a1) = String d (p2 +:+ "/" +:+ a2)) in Heq.
    injection Heq as -> Heq.
    apply includes_cons_false in H1, H2.
    destruct (IH p2 H1 H2 Heq) as [-> ->]. split; reflexivity.
Qed.

(** The user agent tells platform and architecture apart: as long as the
    platform names hold no "/" (none of Node's does), two hosts with the same
    user agent have the same platform and the same architecture. *)
Theorem getPlatformUserAgent_injective (os1 os2 : Host) (arch1 arch2 : string) :
  ~ contains (platform os1) "/" -> ~ contains (platform os2) "/" ->
  getPlatformUserAgent os1 arch1 = getPlatformUserAgent os2 arch2 ->
  platform os1 = platform os2 /\ arch1 = arch2.
Proof.
  intros H1 H2 Heq. apply includes_false_spec in H1, H2.
  unfold getPlatformUserAgent in Heq.
  apply (inj (String.append "antigravity/1.11.5 ")) in Heq.
  exact (append_separator_inj _ _ _ _ H1 H2 Heq).
Qed.

Lemma getPlatformUserAgent_injective_witness :
  getPlatformUserAgent (posixHost "linux" "/home/ada") "x64" =
    "antigravity/1.11.5 linux/x64" /\
  (platform (posixHost "linux" "/home/ada") = platform (posixHost "linux" "/root") /\
   "x64" = "x64").
Proof.
  split; [reflexivity|].
  apply (getPlatformUserAgent_injective
           (posixHost "linux" "/home/ada") (posixHost "linux" "/root") "x64" "x64");
    [decide_contains|decide_contains|reflexivity].
Defined.

(** ** Walking the fallback table *)

Lemma MODEL_FALLBACK_MAP_entry (key substitute : string) :
  MODEL_FALLBACK_MAP !! key = Some substitute ->
  In (key, substitute) MODEL_FALLBACK_ENTRIES.
Proof.
  intros H. apply elem_of_map_to_list in H.
  destruct MODEL_FALLBACK_MAP_to_list as [_ Hperm]. rewrite Hperm in H.
  apply list_elem_of_In, H.
Qed.

Lemma fallbackHops_add (n m : nat) (model : string) :
  fallbackHops (n + m) model =
  match fallbackHops n model with
  | Some reached => fallbackHops m reached
  | None => None
  end.
Proof.
  revert model. induction n as [|n IH]; intros model; [reflexivity|].
  cbn [Nat.add fallbackHops].
  destruct (MODEL_FALLBACK_MAP !! model) as [substitute|]; [apply IH|reflexivity].
Qed.

(** From the second hop on, a walk along the substitutes only goes back and
    forth between two models: for every mapped model and every [n >= 2],
    hop [n + 2] lands where hop [n] did.  It does not from the first hop:
    "gemini-3-pro-low" never comes back to "claude-sonnet-4-5". *)
Theorem fallbackHops_ping_pong (key : string) (n : nat) :
  is_Some (MODEL_FALLBACK_MAP !! key) -> 2 <= n ->
  fallbackHops (n + 2) key = fallbackHops n key.
Proof.
  intros [substitute Hsub] Hn.
  replace (n + 2) with (4 + (n - 2)) by lia.
  replace n with (2 + (n - 2)) at 2 by lia.
  rewrite !fallbackHops_add.
  assert (fallbackHops 4 key = fallbackHops 2 key) as ->; [|reflexivity].
  apply MODEL_FALLBACK_MAP_entry in Hsub. cbn in Hsub.
  repeat (destruct Hsub as [[= <- <-]|Hsub]; [reflexivity|]).
  destruct Hsub.
Qed.

Lemma fallbackHops_ping_pong_witness :
  is_Some (MODEL_FALLBACK_MAP !! "gemini-3-pro-low") /\ 2 <= 2 /\
  fallbackHops (2 + 2) "gemini-3-pro-low" = fallbackHops 2 "gemini-3-pro-low" /\
  fallbackHops (1 + 2) "gemini-3-pro-low" <> fallbackHops 1 "gemini-3-pro-low".
Proof.
  assert (is_Some (MODEL_FALLBACK_MAP !! "gemini-3-pro-low")) as Hkey
    by (eexists; reflexivity).
  split; [exact Hkey|]. split; [lia|]. split.
  - exact (fallbackHops_ping_pong "gemini-3-pro-low" 2 Hkey (le_n 2)).
  - discriminate.
Defined.

(** Every key written in the table is lower-case: the object literal has no
    entry of its own under a name with a capital letter in it, even when the
    classifier, which ignores case, knows the family of that name. *)
Theorem MODEL_FALLBACK_ENTRIES_lower_case (name substitute : string) :
  In (name, substitute) MODEL_FALLBACK_ENTRIES -> toLowerCase name = name.
Proof.
  intros H. cbn in H.
  repeat (destruct H as [[= <- <-]|H]; [reflexivity|]).
  destruct H.
Qed.

Lemma MODEL_FALLBACK_ENTRIES_lower_case_witness :
  In ("gemini-3-flash", "claude-sonnet-4-5-thinking") MODEL_FALLBACK_ENTRIES /\
  toLowerCase "gemini-3-flash" = "gemini-3-flash" /\
  getModelFamily (VString "Gemini-3-Flash") = Some Gemini /\
  ~ In ("Gemini-3-Flash", "claude-sonnet-4-5-thinking") MODEL_FALLBACK_ENTRIES.
Proof.
  assert (In ("gemini-3-flash", "claude-sonnet-4-5-thinking") MODEL_FALLBACK_ENTRIES)
    as Hentry by (cbn; tauto).
  split; [exact Hentry|].
  split; [exact (MODEL_FALLBACK_ENTRIES_lower_case _ _ Hentry)|].
  split; [reflexivity|].
  intros Hupper. apply MODEL_FALLBACK_ENTRIES_lower_case in Hupper. discriminate Hupper.
Defined.

(** Falling back keeps the thinking output of a thinking model, with one
    exception in the table: "gemini-3-pro-low" thinks and its substitute
    "claude-sonnet-4-5" does not. *)
Theorem MODEL_FALLBACK_MAP_thinking (key substitute : string) :
  MODEL_FALLBACK_MAP !! key = Some substitute ->
  isThinkingModel (VString key) = Some true ->
  isThinkingModel (VString substitute) = Some true \/
  (key = "gemini-3-pro-low" /\ substitute = "claude-sonnet-4-5" /\
   isThinkingModel (VString substitute) = Some false).
Proof.
  intros H Hthinks. apply MODEL_FALLBACK_MAP_entry in H. cbn in H.
  repeat (destruct H as [[= <- <-]|H];
          [first [left; reflexivity
                 |right; repeat split; reflexivity
                 |discriminate Hthinks]|]).
  destruct H.
Qed.

Lemma MODEL_FALLBACK_MAP_thinking_witness :
  MODEL_FALLBACK_MAP !! "gemini-3-pro-low" = Some "claude-sonnet-4-5" /\
  isThinkingModel (VString "gemini-3-pro-low") = Some true /\
  (isThinkingModel (VString "claude-sonnet-4-5") = Some true \/
   ("gemini-3-pro-low" = "gemini-3-pro-low" /\
    "claude-sonnet-4-5" = "claude-sonnet-4-5" /\
    isThinkingModel (VString "claude-sonnet-4-5") = Some false)).
Proof.
  split; [reflexivity|]. split; [reflexivity|].
  exact (MODEL_FALLBACK_MAP_thinking "gemini-3-pro-low" "claude-sonnet-4-5"
           eq_refl eq_refl).
Defined.

(** ** The credential store path for any home directory *)

Lemma splitOn_nonempty (sep : ascii) (s : string) :
  exists first others, splitOn sep s = first :: others.
Proof.
  induction s as [|c s [first [others IH]]]; cbn [splitOn]; [eauto|].
  destruct (Ascii.eqb c sep); [eauto|]. rewrite IH. eauto.
Qed.

(** Splitting distributes over a separator. *)
Lemma splitOn_separator (a b : string) :
  splitOn "/" (a +:+ String "/" b) = (splitOn "/" a ++ splitOn "/" b)%list.
Proof.
  induction a as [|c a IH].
  - rewrite append_empty_l. reflexivity.
  - rewrite append_cons. cbn [splitOn]. rewrite IH.
    destruct (Ascii.eqb c "/"); [reflexivity|].
    destruct (splitOn_nonempty "/" a) as [first [others ->]]. reflexivity.
Qed.

Lemma includes_cons_other (c : ascii) (s : string) :
  c <> "/"%char -> includes (String c s) "/" = includes s "/".
Proof.
  intros Hc.
  change (includes (String c s) "/")
    with ((Ascii.eqb "/" c && startsWith s "") || includes s "/").
  apply not_eq_sym, Ascii.eqb_neq in Hc. rewrite Hc. reflexivity.
Qed.

Lemma splitOn_no_separator (s : string) :
  Forall (fun seg => includes seg "/" = false) (splitOn "/" s).
Proof.
  induction s as [|c s IH]; cbn [splitOn]; [repeat constructor|].
  destruct (Ascii.eqb_spec c "/") as [->|Hc]; [constructor; [reflexivity|exact IH]|].
  destruct (splitOn "/" s) as [|seg segs].
  - constructor; [|constructor]. rewrite includes_cons_other by exact Hc. reflexivity.
  - inversion IH as [|? ? Hseg Hsegs]; subst. constructor; [|exact Hsegs].
    rewrite includes_cons_other by exact Hc. exact Hseg.
Qed.

(** Under an absolute path, [normalizeStep] only ever keeps plain segments. *)
Lemma normalizeStep_keeps_plain (acc : list string) (seg : string) :
  forallb plainSegment acc = true -> includes seg "/" = false ->
  forallb plainSegment (normalizeStep false acc seg) = true.
Proof.
  intros Hacc Hseg. unfold normalizeStep.
  destruct (seg =? "") eqn:H1; [exact Hacc|].
  destruct (seg =? ".") eqn:H2; [exact Hacc|]. cbn [orb].
  destruct (seg =? "..") eqn:H3.
  - destruct acc as [|top rest]; [reflexivity|].
    cbn [forallb] in Hacc. apply andb_true_iff in Hacc as [Htop Hrest].
    destruct (top =? ".."); [cbn [forallb]; rewrite Htop, Hrest; reflexivity|exact Hrest].
  - cbn [forallb]. rewrite Hacc, andb_true_r.
    unfold plainSegment. rewrite H1, H2, H3, Hseg. reflexivity.
Qed.

Lemma fold_normalizeStep_keeps_plain (segs acc : list string) :
  forallb plainSegment acc = true ->
  Forall (fun seg => includes seg "/" = false) segs ->
  forallb plainSegment (fold_left (normalizeStep false) segs acc) = true.
Proof.
  intros Hacc Hsegs. revert acc Hacc.
  induction Hsegs as [|seg segs Hseg _ IH]; intros acc Hacc; [exact Hacc|].
  cbn [fold_left]. apply IH, normalizeStep_keeps_plain; assumption.
Qed.

Lemma forallb_reverse {A : Type} (f : A -> bool) (l : list A) :
  forallb f (rev l) = forallb f l.
Proof.
  induction l as [|x l IH]; [reflexivity|].
  cbn [rev forallb]. rewrite forallb_app, IH. cbn [forallb].
  rewrite andb_true_r. apply andb_comm.
Qed.

Lemma homeSegments_plain (home : string) :
  forallb plainSegment (homeSegments true home) = true.
Proof.
  unfold homeSegments. rewrite forallb_reverse.
  apply fold_normalizeStep_keeps_plain; [reflexivity|apply splitOn_no_separator].
Qed.

Lemma joinWith_cons (seg : string) (rest : list string) :
  joinWith "/" (seg :: rest) = seg +:+ absolutePath rest.
Proof.
  revert seg. induction rest as [|next rest IH]; intros seg.
  - cbn [joinWith absolutePath]. rewrite append_empty_r. reflexivity.
  - change (joinWith "/" (seg :: next :: rest))
      with (seg +:+ "/" +:+ joinWith "/" (next :: rest)).
    rewrite (IH next). reflexivity.
Qed.

Lemma splitOn_joinWith (rs : list string) :
  rs <> [] -> forallb plainSegment rs = true -> splitOn "/" (joinWith "/" rs) = rs.
Proof.
  destruct rs as [|seg rest]; [congruence|]. intros _ Hplain.
  rewrite joinWith_cons. apply splitOn_segments, Hplain.
Qed.

Lemma joinWith_app (ks rs : list string) :
  ks <> [] -> rs <> [] ->
  joinWith "/" (ks ++ rs) = joinWith "/" ks +:+ "/" +:+ joinWith "/" rs.
Proof.
  destruct ks as [|seg rest]; [congruence|]. intros _ Hrs.
  cbn [app]. fold (rest ++ rs)%list.
  rewrite !joinWith_cons, absolutePath_app, (absolutePath_joinWith rs Hrs), append_assoc.
  reflexivity.
Qed.

Lemma startsWith_append_nonempty (home rest : string) :
  home <> "" -> startsWith (home +:+ rest) "/" = startsWith home "/".
Proof. destruct home as [|c home]; [congruence|]. intros _. reflexivity. Qed.

(** What [join] makes of any non-empty home and a relative path of plain
    segments: the segments kept of the home, then the relative path. *)
Lemma posixJoin_any_home (home : string) (rs : list string) :
  home <> "" -> rs <> [] -> forallb plainSegment rs = true ->
  posixJoin home (joinWith "/" rs) =
  (if startsWith home "/" then "/" else "") +:+
  joinWith "/" (homeSegments (startsWith home "/") home ++ rs).
Proof.
  intros Hhome Hrs Hplain. unfold posixJoin.
  pose proof (joinWith_nonempty rs Hrs Hplain) as Hrel.
  apply String.eqb_neq in Hhome, Hrel. rewrite Hhome, Hrel.
  apply String.eqb_neq in Hhome, Hrel.
  set (path := home +:+ "/" +:+ joinWith "/" rs).
  assert ((path =? "") = false) as Hpath.
  { apply String.eqb_neq. unfold path. destruct home; [congruence|discriminate]. }
  assert (startsWith path "/" = startsWith home "/") as Habsolute
    by (apply startsWith_append_nonempty, Hhome).
  assert (match lastUnit path with Some c => Ascii.eqb c "/" | None => false end = false)
    as Htrailing.
  { unfold path. rewrite <- (absolutePath_joinWith rs Hrs).
    rewrite lastUnit_append.
    - apply absolutePath_no_trailing_separator; assumption.
    - destruct (absolutePath_nonempty rs Hrs) as [tail ->]. discriminate. }
  assert (splitOn "/" path = (splitOn "/" home ++ rs)%list) as Hsplit.
  { unfold path. change ("/" +:+ joinWith "/" rs) with (String "/" (joinWith "/" rs)).
    rewrite splitOn_separator, splitOn_joinWith by assumption. reflexivity. }
  unfold normalize. rewrite Hpath, Habsolute, Htrailing, Hsplit.
  rewrite fold_left_app, fold_normalizeStep_plain by exact Hplain.
  rewrite rev_app_distr, rev_involutive. fold (homeSegments (startsWith home "/") home).
  set (kept := (homeSegments (startsWith home "/") home ++ rs)%list).
  assert ((joinWith "/" kept =? "") = false) as ->.
  { apply String.eqb_neq. unfold kept.
    destruct (homeSegments (startsWith home "/") home) as [|seg rest] eqn:Hkept.
    - exact Hrel.
    - rewrite joinWith_app by (discriminate || assumption).
      intros Hempty. destruct (joinWith "/" (seg :: rest)); discriminate Hempty. }
  rewrite append_empty_r. reflexivity.
Qed.

Lemma storeSegments_plain (plat : string) :
  storeSegments plat <> [] /\ forallb plainSegment (storeSegments plat) = true.
Proof.
  unfold storeSegments.
  destruct (plat =? "darwin"); [|destruct (plat =? "win32")];
    (split; [discriminate|reflexivity]).
Qed.

Lemma getAntigravityDbPath_join (os : Host) :
  getAntigravityDbPath os =
  join os (homedir os) (joinWith "/" (storeSegments (platform os))).
Proof.
  unfold getAntigravityDbPath, storeSegments.
  destruct (platform os =? "darwin"); [|destruct (platform os =? "win32")]; reflexivity.
Qed.

(** Whatever the home directory is (empty, relative, with "." or ".."
    segments or doubled separators), on a POSIX host the path returned ends
    with the platform's relative path, whole: what comes before it is empty
    or ends with a separator.  So the file opened is always state.vscdb in
    [Antigravity/User/globalStorage]. *)
Theorem getAntigravityDbPath_any_home (plat home : string) :
  exists before,
    getAntigravityDbPath (posixHost plat home) =
      before +:+ joinWith "/" (storeSegments plat) /\
    (before = "" \/ lastUnit before = Some "/"%char).
Proof.
  rewrite getAntigravityDbPath_join. cbn [posixHost platform homedir join].
  destruct (storeSegments_plain plat) as [Hne Hplain].
  destruct (String.eqb_spec home "") as [->|Hhome].
  - exists "". split; [|left; reflexivity].
    unfold storeSegments.
    destruct (plat =? "darwin"); [|destruct (plat =? "win32")]; reflexivity.
  - rewrite (posixJoin_any_home home _ Hhome Hne Hplain).
    destruct (homeSegments (startsWith home "/") home) as [|seg rest].
    + exists (if startsWith home "/" then "/" else ""). split; [reflexivity|].
      destruct (startsWith home "/"); [right|left]; reflexivity.
    + exists ((if startsWith home "/" then "/" else "") +:+
              joinWith "/" (seg :: rest) +:+ "/").
      split.
      * rewrite joinWith_app by (discriminate || assumption).
        rewrite !append_assoc. reflexivity.
      * right. rewrite <- append_assoc. apply lastUnit_append. discriminate.
Qed.

(** With an absolute home directory the path returned is in normal form: a
    separator before each of its segments, all of them plain (no empty, "."
    or ".." segment is left), the segments kept of the home first and the
    platform's own after them; normalizing it again changes nothing. *)
Theorem getAntigravityDbPath_absolute_home (plat home : string) :
  startsWith home "/" = true ->
  let segments := (homeSegments true home ++ storeSegments plat)%list in
  getAntigravityDbPath (posixHost plat home) = absolutePath segments /\
  forallb plainSegment segments = true /\
  normalize (getAntigravityDbPath (posixHost plat home)) =
    getAntigravityDbPath (posixHost plat home).
Proof.
  intros Habsolute segments.
  destruct (storeSegments_plain plat) as [Hne Hplain].
  assert (home <> "") as Hhome by (intros ->; discriminate Habsolute).
  assert (segments <> []) as Hsegments.
  { unfold segments. destruct (homeSegments true home); [exact Hne|discriminate]. }
  assert (forallb plainSegment segments = true) as Hall.
  { unfold segments. rewrite forallb_app, homeSegments_plain, Hplain. reflexivity. }
  assert (getAntigravityDbPath (posixHost plat home) = absolutePath segments) as Hpath.
  { rewrite getAntigravityDbPath_join. cbn [posixHost platform homedir join].
    rewrite (posixJoin_any_home home _ Hhome Hne Hplain), Habsolute.
    symmetry. apply absolutePath_joinWith, Hsegments. }
  split; [exact Hpath|]. split; [exact Hall|].
  rewrite Hpath. apply normalize_absolutePath; assumption.
Qed.

Lemma getAntigravityDbPath_absolute_home_witness :
  startsWith "/Users//ada/./tmp/.." "/" = true /\
  getAntigravityDbPath (posixHost "darwin" "/Users//ada/./tmp/..") =
    "/Users/ada/Library/Application Support/Antigravity/User/globalStorage/state.vscdb".
Proof.
  split; [reflexivity|].
  destruct (getAntigravityDbPath_absolute_home "darwin" "/Users//ada/./tmp/.." eq_refl)
    as [Hpath _].
  rewrite Hpath. reflexivity.
Defined.

Lemma homeSegments_trailing (absolute : bool) (home last : string) :
  last = "" \/ last = "." ->
  homeSegments absolute (home +:+ String "/" last) = homeSegments absolute home.
Proof.
  intros Hlast. unfold homeSegments.
  rewrite splitOn_separator, fold_left_app.
  destruct Hlast as [-> | ->]; reflexivity.
Qed.

(** A separator, or a separator and a ".", at the end of the home directory
    makes no difference to the path returned. *)
Theorem getAntigravityDbPath_trailing_separator (plat home : string) :
  home <> "" ->
  getAntigravityDbPath (posixHost plat (home +:+ "/")) =
    getAntigravityDbPath (posixHost plat home) /\
  getAntigravityDbPath (posixHost plat (home +:+ "/.")) =
    getAntigravityDbPath (posixHost plat home).
Proof.
  intros Hhome. destruct (storeSegments_plain plat) as [Hne Hplain].
  assert (forall last, last = "" \/ last = "." ->
            getAntigravityDbPath (posixHost plat (home +:+ String "/" last)) =
            getAntigravityDbPath (posixHost plat home)) as Hsame.
  { intros last Hlast. rewrite !getAntigravityDbPath_join.
    cbn [posixHost platform homedir join].
    assert (home +:+ String "/" last <> "") as Hlonger
      by (destruct home; [congruence|discriminate]).
    rewrite (posixJoin_any_home _ _ Hlonger Hne Hplain).
    rewrite (posixJoin_any_home _ _ Hhome Hne Hplain).
    rewrite startsWith_append_nonempty by exact Hhome.
    rewrite homeSegments_trailing by exact Hlast. reflexivity. }
  split; [apply (Hsame ""); left|apply (Hsame "."); right]; reflexivity.
Qed.

Lemma getAntigravityDbPath_trailing_separator_witness :
  "/home/ada" <> "" /\
  getAntigravityDbPath (posixHost "linux" ("/home/ada" +:+ "/")) =
    getAntigravityDbPath (posixHost "linux" "/home/ada").
Proof.
  assert ("/home/ada" <> "") as Hhome by discriminate.
  split; [exact Hhome|].
  apply (getAntigravityDbPath_trailing_separator "linux" "/home/ada" Hhome).
Defined.

(** ** The accounts file *)

(** [ACCOUNT_CONFIG_PATH] is the configured value as it stands whenever that
    value is truthy: it is not joined onto the home directory, not
    normalized, and not required to be a string.  Otherwise, on a POSIX host
    whose home is an absolute path of plain segments, it is accounts.json in
    the home's .config/antigravity-proxy. *)
Theorem ACCOUNT_CONFIG_PATH_choice (plat : string) (hs : list string) (config : Config) :
  hs <> [] -> forallb plainSegment hs = true ->
  let supplied := optionalField config "accountConfigPath" in
  let path := ACCOUNT_CONFIG_PATH (posixHost plat (absolutePath hs)) config in
  (truthy supplied = true -> path = supplied) /\
  (truthy supplied = false ->
     path = VString (absolutePath hs +:+ "/.config/antigravity-proxy/accounts.json")).
Proof.
  intros Hne Hplain supplied path. split; intros Hsupplied.
  - unfold path, ACCOUNT_CONFIG_PATH, jsOr. fold supplied. rewrite Hsupplied. reflexivity.
  - apply ACCOUNT_CONFIG_PATH_default; assumption.
Qed.

Lemma ACCOUNT_CONFIG_PATH_choice_witness :
  ["home"; "ada"] <> [] /\ forallb plainSegment ["home"; "ada"] = true /\
  ACCOUNT_CONFIG_PATH (posixHost "linux" "/home/ada")
                      (Some {[ "accountConfigPath" := VString "../accounts.json" ]}) =
    VString "../accounts.json" /\
  ACCOUNT_CONFIG_PATH (posixHost "linux" "/home/ada") None =
    VString "/home/ada/.config/antigravity-proxy/accounts.json".
Proof.
  assert (["home"; "ada"] <> []) as Hne by discriminate.
  split; [exact Hne|]. split; [reflexivity|]. split.
  - destruct (ACCOUNT_CONFIG_PATH_choice "linux" ["home"; "ada"]
                (Some {[ "accountConfigPath" := VString "../accounts.json" ]}) Hne eq_refl)
      as [Hsupplied _].
    exact (Hsupplied eq_refl).
  - destruct (ACCOUNT_CONFIG_PATH_choice "linux" ["home"; "ada"] None Hne eq_refl)
      as [_ Hdefault].
    exact (Hdefault eq_refl).
Defined.
